(** * pcsftools: a shallow embedding of [pcsf_python/pcsftools.py]

    The module is a thin layer over pandas, networkx and the OmicsIntegrator
    solver.  Each Python function is embedded as a Rocq function of the same
    name.  Exceptions are made explicit with the [result] type, console output
    and the other observable steps are recorded in an event trace, and the
    names a function body mentions are resolved against the module's
    namespace, as the interpreter does when the body runs.

    Numbers.  A Python int or float is embedded as the rational [Q] it
    denotes; a float denotes a binary64 value.  The arithmetic the module
    performs itself is one true division of two set sizes, kept as the exact
    quotient; the comparisons of the sampling proportion with 0 and 1, which
    are exact on floats; and one product of a list length with the sampling
    proportion, which is rounded to binary64 as the interpreter rounds it.
    The sums of edge weights along a path are rounded in the same way. *)

From Stdlib Require Import QArith Qround.
From stdpp Require Import gmap strings list fin_maps fin_sets sorting pretty.

Local Close Scope Q_scope.
Local Open Scope string_scope.
Local Open Scope list_scope.

(** ** Exceptions and results *)

Inductive exn : Type :=
| NameError (name : string)
| AssertionError
| ZeroDivisionError
| KeyError (key : string)
| ValueError
| IndexError
| TypeError
| NetworkXNoPath
| NodeNotFound.

Inductive result (A : Type) : Type :=
| Ok (a : A)
| Raise (e : exn).

Arguments Ok {A} a.
Arguments Raise {A} e.

Definition is_ok {A} (r : result A) : bool :=
  match r with Ok _ => true | Raise _ => false end.

(** ** The module namespace

    Lines 6-11 bind [pd], [itertools], [nx], [graph], [random] and
    [datetime]; the [def] statements bind the eight functions.  Nothing else
    is bound at module level. *)

Definition module_globals : list string :=
  [ "pd"; "itertools"; "nx"; "graph"; "random"; "datetime";
    "run_pcsf"; "_get_similarity"; "get_path_costs";
    "convert_to_gene_symbol"; "convert_to_string_id";
    "get_network_details"; "get_graph_edit_distance";
    "make_solution_similarity_matrix" ].

(** The built-in names the module uses. *)
Definition builtins : list string :=
  [ "print"; "len"; "set"; "list"; "dict"; "zip"; "int"; "str"; "range";
    "AssertionError"; "KeyError"; "True"; "False"; "None" ].

Definition bound_in (names : list string) (name : string) : bool :=
  existsb (String.eqb name) names.

(** Name lookup: local scope, then module globals, then built-ins; a name
    found nowhere raises [NameError]. *)
Definition resolve (locals : list string) (name : string) : result unit :=
  if bound_in locals name || bound_in module_globals name || bound_in builtins name
  then Ok tt
  else Raise (NameError name).

(** Loading a name whose value the model needs: [env] lists the bindings in
    scope that hold a value of the expected kind.  A name bound nowhere
    raises [NameError]. *)
Definition load {A} (locals : list string) (env : list (string * A))
    (name : string) : result A :=
  match list_find (λ b, b.1 = name) env with
  | Some (_, b) => Ok b.2
  | None => match resolve locals name with
            | Raise e => Raise e
            | Ok _ => Raise TypeError
            end
  end.

(** ** [_get_similarity] (lines 64-75) *)

(** [x / y] on two ints: [ZeroDivisionError] when [y] is 0, else the
    quotient, kept in lowest terms so that equal quotients are equal terms. *)
Definition py_truediv (n d : nat) : result Q :=
  match d with
  | O => Raise ZeroDivisionError
  | S _ => Ok (Qred (Z.of_nat n # Pos.of_nat d))
  end.

Definition _get_similarity (a b : list string) : result Q :=
  py_truediv (size (list_to_set a ∩ list_to_set b : gset string))
             (size (list_to_set a ∪ list_to_set b : gset string)).


(** ** Observable steps and the state-and-exception monad *)

Inductive event : Type :=
| Print (line : string)
| PrintProgress (percent : Q)
| BuildGraph
| Draw (index : nat)
| PathQuery (home dest : string).

(** [trace] lists the observable steps in the order they happen; [draws]
    counts the calls made so far to [random.randrange]. *)
Record world : Type := World { trace : list event; draws : nat }.

Definition world0 : world := World [] 0.

Record M (A : Type) : Type := MkM { run : world → world * result A }.
Arguments MkM {A} _.
Arguments run {A} _ _.

#[global] Instance result_ret : MRet result := λ A a, Ok a.
#[global] Instance result_bind : MBind result := λ A B f r,
  match r with Ok a => f a | Raise e => Raise e end.

#[global] Instance M_ret : MRet M := λ A a, MkM (λ w, (w, Ok a)).
#[global] Instance M_bind : MBind M := λ A B f c,
  MkM (λ w, match run c w with
            | (w', Ok a) => run (f a) w'
            | (w', Raise e) => (w', Raise e)
            end).

Definition lift {A} (r : result A) : M A := MkM (λ w, (w, r)).

Definition emit (e : event) : M unit :=
  MkM (λ w, (World (trace w ++ [e]) (draws w), Ok tt)).

(** [try: body except exc_name: handler].  The handler clause is looked at
    only when [body] raises; its expression [exc_name] is evaluated then, and
    an unbound name raises [NameError] in place of the pending exception. *)
Definition try_except {A} (locals : list string) (body : M A)
    (exc_name : string) (matches : exn → bool) (handler : M A) : M A :=
  MkM (λ w, match run body w with
            | (w', Ok a) => (w', Ok a)
            | (w', Raise e) =>
                match resolve locals exc_name with
                | Raise ne => (w', Raise ne)
                | Ok _ => if matches e then run handler w' else (w', Raise e)
                end
            end).

Definition py_assert (c : bool) : M unit :=
  lift (if c then Ok tt else Raise AssertionError).

Definition is_AssertionError (e : exn) : bool :=
  match e with AssertionError => true | _ => false end.
Definition is_KeyError (e : exn) : bool :=
  match e with KeyError _ => true | _ => false end.
Definition is_NetworkXNoPath (e : exn) : bool :=
  match e with NetworkXNoPath => true | _ => false end.

(** ** networkx graphs *)

Inductive value : Type :=
| VNum (q : Q)
| VStr (s : string).

(** An undirected [nx.Graph]: the nodes in insertion order, the attribute
    dictionary of each node, and the attribute dictionary of each edge, stored
    under both orientations of the edge. *)
Record nx_graph : Type := NxGraph {
  g_nodes : list string;
  g_node_attrs : gmap string (gmap string value);
  g_adj : gmap (string * string) (gmap string Q)
}.

Definition empty_graph : nx_graph := NxGraph [] ∅ ∅.

Definition has_node (G : nx_graph) (n : string) : bool :=
  bound_in (g_nodes G) n.

Definition add_node (n : string) (G : nx_graph) : nx_graph :=
  if has_node G n then G
  else NxGraph (g_nodes G ++ [n]) (g_node_attrs G) (g_adj G).

Definition edge_data (G : nx_graph) (u v : string) : gmap string Q :=
  default ∅ (g_adj G !! (u, v)).

(** [G.add_edge(u, v)] followed by [G[u][v].update({attr: x})]. *)
Definition add_edge (u v attr : string) (x : Q) (G : nx_graph) : nx_graph :=
  let G' := add_node v (add_node u G) in
  let d := <[attr := x]> (edge_data G u v) in
  NxGraph (g_nodes G') (g_node_attrs G') (<[(v, u) := d]> (<[(u, v) := d]> (g_adj G'))).

Definition node_data (G : nx_graph) (n : string) : gmap string value :=
  default ∅ (g_node_attrs G !! n).

(** [nx.set_node_attributes(G, {node: {attr: v} ...})]: nodes that are not
    in the graph are passed over. *)
Definition set_node_attributes (G : nx_graph) (attr : string)
    (values : list (string * value)) : nx_graph :=
  foldl (λ G' nv,
           if has_node G' nv.1
           then NxGraph (g_nodes G')
                        (<[nv.1 := <[attr := nv.2]> (node_data G' nv.1)]> (g_node_attrs G'))
                        (g_adj G')
           else G')
        G values.

(** [nx.get_node_attributes(G, attr)], as its list of items. *)
Definition get_node_attributes (G : nx_graph) (attr : string) : list (string * value) :=
  omap (λ n, v ← node_data G n !! attr; Some (n, v)) (g_nodes G).

(** ** Edge-list tables and [nx.from_pandas_edgelist] *)

(** A three-column data frame: the labels of the columns and the rows. *)
Record edge_table : Type := EdgeTable {
  col0 : string;
  col1 : string;
  col2 : string;
  rows : list (string * string * Q)
}.

Definition from_pandas_edgelist (adj_list : edge_table)
    (source target edge_attr : string) : nx_graph :=
  foldl (λ G r, let '(s, t, x) := r in add_edge s t edge_attr x G)
        empty_graph (rows adj_list).

(** ** Binary64 arithmetic

    A float is a rational of the form [m * 2 ^ e] with [|m| < 2 ^ 53] and
    [-1074 <= e]; the result of an operation on floats is the exact result
    rounded to the nearest such number, a tie going to the even [m].  The
    exponent is not bounded above: the operands below are list lengths,
    proportions up to 1 and sums of edge weights. *)

(** The integer nearest to [a / b], a tie going to the even one ([0 <= a]). *)
Definition round_half_even (a : Z) (b : positive) : Z :=
  let q := (a / Zpos b)%Z in
  match (2 * (a mod Zpos b) ?= Zpos b)%Z with
  | Lt => q
  | Gt => (q + 1)%Z
  | Eq => if Z.even q then q else (q + 1)%Z
  end.

(** The exponent of the binade of [n / d]: the largest [c] with
    [2 ^ c <= n / d] ([0 < n]). *)
Definition binade (n : Z) (d : positive) : Z :=
  let c := (Z.log2 n - Z.log2 (Zpos d))%Z in
  if (if 0 <=? c then Zpos d * 2 ^ c <=? n else Zpos d <=? n * 2 ^ (- c))%Z
  then c else (c - 1)%Z.

(** Rounding of a non-negative rational to binary64: 53 significant bits,
    no exponent below -1074, ties to even. *)
Definition round_binary64_pos (n : Z) (d : positive) : Q :=
  if (n <? 2 ^ 53 * Zpos d)%Z
  then let j := Z.min 1074 (Z.max 0 (52 - binade n d)) in
       Qred (round_half_even (n * 2 ^ j) d # Z.to_pos (2 ^ j))
  else let e := (binade n d - 52)%Z in
       inject_Z (round_half_even n (d * Z.to_pos (2 ^ e)) * 2 ^ e).

Definition round_binary64 (x : Q) : Q :=
  match Qnum x with
  | Z0 => 0%Q
  | Zpos n => round_binary64_pos (Zpos n) (Qden x)
  | Zneg n => Qopp (round_binary64_pos (Zpos n) (Qden x))
  end.


(** The float written as the decimal literal [q]. *)
Definition float_literal (q : Q) : Q := round_binary64 q.

(** [n * x] for the length [n] of a list and a float [x]: the length is
    converted to a float and the product is rounded.  A list has fewer than
    2 ^ 53 items, since its item pointers alone would fill 2 ^ 56 bytes, so
    the conversion is exact and the product is rounded once.  On the lengths
    beyond, which no run reaches, the definition keeps the product as it is. *)
Definition len_times_float (n : nat) (x : Q) : Q :=
  if (Z.of_nat n <? 2 ^ 53)%Z
  then round_binary64 (inject_Z (Z.of_nat n) * x)
  else (inject_Z (Z.of_nat n) * x)%Q.

(** ** [nx.dijkstra_path_length]

    The networkx collaborator, by its documented contract: [NodeNotFound]
    when the source is not in the graph, 0 when source and target coincide,
    [NetworkXNoPath] when the target cannot be reached, and otherwise the
    least total weight of a path, where an edge without the [weight]
    attribute weighs 1.  The weight of a path is the float sum of its edge
    weights, taken from the source on.  The contract covers graphs whose
    weights are not negative, as Dijkstra's algorithm requires; on other
    graphs the answer of networkx depends on the order of its queue and is
    not embedded.  The least weight is computed by relaxing every edge once
    per node of the graph. *)

Definition edge_weight (weight : string) (data : gmap string Q) : Q :=
  default 1%Q (data !! weight).

Definition relax (weight : string) (dist : gmap string Q)
    (e : string * string * gmap string Q) : gmap string Q :=
  let '(u, v, data) := e in
  match dist !! u with
  | None => dist
  | Some du =>
      let c := Qred (round_binary64 (du + edge_weight weight data)) in
      match dist !! v with
      | Some dv => if Qle_bool dv c then dist else <[v := c]> dist
      | None => <[v := c]> dist
      end
  end.

Definition relax_round (weight : string) (G : nx_graph)
    (dist : gmap string Q) : gmap string Q :=
  foldl (relax weight) dist (map_to_list (g_adj G)).

Definition distances (G : nx_graph) (source weight : string) : gmap string Q :=
  Nat.iter (length (g_nodes G)) (relax_round weight G) {[ source := 0%Q ]}.

Definition dijkstra_path_length (G : nx_graph) (source target weight : string)
    : result Q :=
  if negb (has_node G source) then Raise NodeNotFound
  else if String.eqb source target then Ok 0%Q
  else match distances G source weight !! target with
       | Some d => Ok d
       | None => Raise NetworkXNoPath
       end.

(** ** [itertools] and list helpers *)

(** [itertools.combinations(l, 2)] *)
Fixpoint combinations {A} (l : list A) : list (A * A) :=
  match l with
  | [] => []
  | x :: t => map (pair x) t ++ combinations t
  end.

(** [itertools.product(l1, l2)] *)
Definition product {A B} (l1 : list A) (l2 : list B) : list (A * B) :=
  x ← l1; y ← l2; [(x, y)].

(** [l.pop(i)] for an index in range: the element and the shortened list. *)
Definition pop {A} (l : list A) (i : nat) : option (A * list A) :=
  x ← l !! i; Some (x, delete i l).

(** [int(q)]: truncation towards zero. *)
Definition py_int (q : Q) : Z := Z.quot (Qnum q) (Zpos (Qden q)).

(** [range(n)] runs [Z.to_nat n] times: not at all when [n] is negative. *)
Definition range_len (n : Z) : nat := Z.to_nat n.

(** The passes of [for i in range(int(len(combs) * sampled_proportion))]. *)
Abbreviation sample_count len p := (range_len (py_int (len_times_float len p))).

(** ** [get_path_costs] (lines 78-130) *)

(** [random.randrange(n)]: [rng k] is the raw outcome of the [k]-th call,
    reduced into the range; every value below [n] is a possible outcome.
    An empty range raises [ValueError]. *)
Definition randrange (rng : nat → nat) (n : nat) : M nat :=
  MkM (λ w, match n with
            | O => (w, Raise ValueError)
            | S _ => let v := rng (draws w) `mod` n in
                     (World (trace w ++ [Draw v]) (S (draws w)), Ok v)
            end).

Definition get_path_costs_locals : list string :=
  [ "seeds"; "adj_list"; "print_prog"; "sampled_proportion"; "G"; "combs";
    "path_costs"; "i"; "samples"; "home"; "dest" ].

(** [100*i / samples] *)
Definition progress (i samples : nat) : Q :=
  Qred (Z.of_nat (100 * i) # Pos.of_nat samples).

(** The line printed by a pass when [print_prog] is set. *)
Definition progress_line (print_prog : bool) (i samples : nat) : list event :=
  if print_prog then [PrintProgress (progress i samples)] else [].

(** One pass through the body of the [for] loop: the progress line, the
    draw, and the path query guarded by [try]/[except].  It yields the
    pending pairs and the dictionary as the pass leaves them. *)
Definition sample_step (rng : nat → nat) (G : nx_graph) (print_prog : bool)
    (samples i : nat) (combs : list (string * string))
    (path_costs : gmap (string * string) Q)
    : M (list (string * string) * gmap (string * string) Q) :=
  _ ← (if print_prog then emit (PrintProgress (progress i samples)) else mret tt);
  k ← randrange rng (length combs);
  '(home, dest, combs') ← lift (match pop combs k with
                                | Some x => Ok x
                                | None => Raise IndexError
                                end);
  path_costs' ← try_except get_path_costs_locals
    (_ ← emit (PathQuery home dest);
     c ← lift (dijkstra_path_length G home dest "cost");
     mret (<[(home, dest) := c]> path_costs))
    "NetworkXNoPath" is_NetworkXNoPath
    (mret path_costs);
  mret (combs', path_costs').

(** The [for i in range(samples)] loop, [todo] iterations from index [i].
    The assignment [i = i + 1] that ends the body is overwritten by the next
    value of the range, so the index advances by one in either branch. *)
Fixpoint sample_loop (rng : nat → nat) (G : nx_graph) (print_prog : bool)
    (samples todo i : nat) (combs : list (string * string))
    (path_costs : gmap (string * string) Q) : M (gmap (string * string) Q) :=
  match todo with
  | O => mret path_costs
  | S todo' =>
      st ← sample_step rng G print_prog samples i combs path_costs;
      sample_loop rng G print_prog samples todo' (S i) st.1 st.2
  end.

Definition get_path_costs (rng : nat → nat) (seeds : list string)
    (adj_list : edge_table) (print_prog : bool) (sampled_proportion : Q)
    : M (option (gmap (string * string) Q)) :=
  valid ← try_except get_path_costs_locals
    (_ ← py_assert (negb (Qle_bool sampled_proportion 0));
     _ ← py_assert (Qle_bool sampled_proportion 1);
     mret true)
    "AssertionError" is_AssertionError
    (_ ← emit (Print "Sampled proportion must be in (0, 1]");
     mret false);
  if negb valid then mret None
  else
    _ ← emit BuildGraph;
    let G := from_pandas_edgelist adj_list (col0 adj_list) (col1 adj_list) (col2 adj_list) in
    let combs := combinations seeds in
    let samples :=
      range_len (py_int (len_times_float (length combs) sampled_proportion)) in
    path_costs ← sample_loop rng G print_prog samples samples 0 combs ∅;
    mret (Some path_costs).

(** The pairs handed to [nx.dijkstra_path_length], in order. *)
Definition attempted (tr : list event) : list (string * string) :=
  omap (λ e, match e with PathQuery h d => Some (h, d) | _ => None end) tr.

(** ** The ID mapper (lines 133-187) *)

(** A parsed tab-separated file: each column label with its values. *)
Definition table : Type := list (string * list string).

(** [tmp[label]] *)
Definition column (tmp : table) (label : string) : result (list string) :=
  match list_find (λ c, c.1 = label) tmp with
  | Some (_, c) => Ok c.2
  | None => Raise (KeyError label)
  end.

(** [dict(items)]: a later item replaces an earlier one with the same key. *)
Definition py_dict {V} (items : list (string * V)) : gmap string V :=
  foldl (λ d kv, <[kv.1 := kv.2]> d) ∅ items.

(** [d[k]] *)
Definition getitem {V} (d : gmap string V) (k : string) : result V :=
  match d !! k with
  | Some v => Ok v
  | None => Raise (KeyError k)
  end.

Definition convert_locals : list string :=
  [ "string_ids"; "genes"; "map_path"; "tmp"; "string2gene"; "gene2string";
    "gene_syms"; "s"; "g" ].

(** The loop shared by the two converters: look each ID up, and on
    [KeyError] keep the ID. *)
Fixpoint translate (d : gmap string string) (ids out : list string)
    : M (list string) :=
  match ids with
  | [] => mret out
  | s :: rest =>
      out' ← try_except convert_locals
        (v ← lift (getitem d s); mret (out ++ [v]))
        "KeyError" is_KeyError
        (mret (out ++ [s]));
      translate d rest out'
  end.

(** The mapping in the words of the specification: the value the file gives
    for an ID, if any; when several rows carry the ID, the last one counts. *)
Fixpoint mapped_value (items : list (string * string)) (s : string)
    : option string :=
  match items with
  | [] => None
  | (k, v) :: rest =>
      match mapped_value rest s with
      | Some v' => Some v'
      | None => if String.eqb k s then Some v else None
      end
  end.

Section Files.

(** [pd.read_csv(path, sep='\t')]: the file system and the parser. *)
Variable read_csv : string → result table.

Definition convert_to_gene_symbol (string_ids : list string) (map_path : string)
    : M (list string) :=
  tmp ← lift (read_csv map_path);
  keys ← lift (column tmp "STRING");
  vals ← lift (column tmp "display name");
  let string2gene := py_dict (zip keys vals) in
  translate string2gene string_ids [].

Definition convert_to_string_id (genes : list string) (map_path : string)
    : M (list string) :=
  tmp ← lift (read_csv map_path);
  keys ← lift (column tmp "display name");
  vals ← lift (column tmp "STRING");
  let gene2string := py_dict (zip keys vals) in
  translate gene2string genes [].

End Files.

(** ** [get_network_details] (lines 190-210)

    The embedding is that of the function body.  The annotation
    [G: networkx] of the [def] line mentions a name the module does not bind
    either (the import binds [nx]); an interpreter that evaluates annotations
    when the function is defined stops there. *)

(** A data frame: the row index and the columns in insertion order. *)
Record data_frame : Type := DataFrame {
  df_index : list string;
  df_columns : list (string * list value)
}.

Definition column_labels (df : data_frame) : list string := (df_columns df).*1.

(** [df[a] = vals]: the values must be as many as the rows; an existing
    column is replaced, a new one is appended. *)
Definition set_column (df : data_frame) (a : string) (vals : list value)
    : result data_frame :=
  if negb (Nat.eqb (length vals) (length (df_index df))) then Raise ValueError
  else if bound_in (column_labels df) a
  then Ok (DataFrame (df_index df)
             (map (λ c, if String.eqb c.1 a then (a, vals) else c) (df_columns df)))
  else Ok (DataFrame (df_index df) (df_columns df ++ [(a, vals)])).

Definition get_network_details_locals : list string :=
  [ "G"; "atts"; "sort_by"; "att_df"; "a" ].

(** Truth value of the [sort_by] argument: [False], [None] and the empty
    string select the unsorted branch. *)
Definition truthy (sort_by : option string) : bool :=
  match sort_by with
  | Some s => negb (String.eqb s "")
  | None => false
  end.

Section Pandas.

(** [df.sort_values(by, ascending=...)], the pandas collaborator. *)
Variable sort_values : data_frame → string → bool → result data_frame.

Definition get_network_details (G : nx_graph) (atts : list string)
    (sort_by : option string) : M data_frame :=
  att_df ← lift (foldl (λ r a, df ← r; set_column df a (get_node_attributes G a).*2)
                       (Ok (DataFrame (g_nodes G) [])) atts);
  if truthy sort_by then
    let by_ := default "" sort_by in
    _ ← py_assert (bound_in (column_labels att_df) by_);
    key ← lift (load get_network_details_locals [("sort_by", by_)] "sortBy");
    lift (sort_values att_df key false)
  else mret att_df.

End Pandas.

(** ** [get_graph_edit_distance] (lines 213-231) *)

Section EditDistance.

(** [nx.graph_edit_distance(G1, G2)], the networkx collaborator. *)
Variable graph_edit_distance : nx_graph → nx_graph → result Q.

(** The loop over [combs]: one entry per pair, stopping at the first
    exception. *)
Fixpoint edit_distance_loop (graph_dict : gmap string nx_graph)
    (combs : list (string * string)) (edit_distances : gmap (string * string) Q)
    : result (gmap (string * string) Q) :=
  match combs with
  | [] => Ok edit_distances
  | (k1, k2) :: rest =>
      g1 ← getitem graph_dict k1;
      g2 ← getitem graph_dict k2;
      x ← graph_edit_distance g1 g2;
      edit_distance_loop graph_dict rest (<[(k1, k2) := x]> edit_distances)
  end.

Definition get_graph_edit_distance (graph_dict : gmap string nx_graph)
    : M (gmap (string * string) Q) :=
  let keys := (map_to_list graph_dict).*1 in
  lift (edit_distance_loop graph_dict (product keys keys) ∅).

End EditDistance.

(** ** [make_solution_similarity_matrix] (lines 234-256) *)

(** A pivoted table: row labels, column labels and the cells. *)
Record matrix : Type := Matrix {
  m_index : list string;
  m_columns : list string;
  m_cells : gmap (string * string) Q
}.

Definition string_le (a b : string) : Prop := String.leb a b = true.

#[global] Instance string_le_dec : RelDecision string_le :=
  λ a b, decide (String.leb a b = true).

(** Labels of a pivoted axis: each label once, in increasing order. *)
Definition sorted_labels (l : list string) : list string :=
  merge_sort string_le (remove_dups l).

(** [pd.DataFrame(rows, columns=[i, c, v]).pivot(index=i, columns=c, values=v)];
    two rows with the same labels raise [ValueError]. *)
Definition pivot (rows : list (string * string * Q)) : result matrix :=
  if bool_decide (NoDup rows.*1)
  then Ok (Matrix (sorted_labels rows.*1.*1) (sorted_labels rows.*1.*2)
                  (foldl (λ m r, <[r.1 := r.2]> m) ∅ rows))
  else Raise ValueError.

Definition similarity_matrix_locals : list string :=
  [ "res_dict"; "combs"; "sim_mat"; "k1"; "k2"; "G1"; "G2" ].

(** The rows appended to [sim_mat] by the loop over [combs]. *)
Definition similarity_rows (res_dict : gmap string (list string))
    : result (list (string * string * Q)) :=
  let keys := (map_to_list res_dict).*1 in
  mapM (λ k : string * string,
          G1 ← getitem res_dict k.1;
          G2 ← getitem res_dict k.2;
          m ← _get_similarity G1 G2;
          Ok (k.1, k.2, m))
       (product keys keys).

Definition make_solution_similarity_matrix (res_dict : gmap string (list string))
    : M matrix :=
  rows ← lift (similarity_rows res_dict);
  sim_mat ← lift (pivot rows);
  lift (load similarity_matrix_locals [("sim_mat", sim_mat)] "simMat").

(** ** [run_pcsf] (lines 13-61) *)

Definition run_pcsf_locals : list string :=
  [ "prizes"; "ppi"; "params"; "time"; "add_attribs"; "now"; "current_time";
    "pcsfGraph"; "verts"; "edgs"; "resultForest"; "_"; "node";
    "b_centrality"; "ev_centrality"; "deg_centrality"; "cluster" ].

Section Solver.

(** The OmicsIntegrator collaborator: the graph constructor and the three
    methods [run_pcsf] calls on it. *)
Context {prizes_t ppi_t params_t pcsf_graph vertex_set edge_set : Type}.
Variable graph_Graph : ppi_t → params_t → result pcsf_graph.
Variable prepare_prizes : pcsf_graph → prizes_t → result pcsf_graph.
Variable pcsf : pcsf_graph → result (vertex_set * edge_set).
Variable output_forest_as_networkx :
  pcsf_graph → vertex_set → edge_set → result (nx_graph * nx_graph).

(** The networkx centrality measures and the Louvain partition, each as the
    items of the dictionary it returns. *)
Variable betweenness_centrality : nx_graph → result (list (string * Q)).
Variable eigenvector_centrality : nx_graph → result (list (string * Q)).
Variable degree_centrality : nx_graph → result (list (string * Q)).
Variable best_partition : nx_graph → result (list (string * nat)).

(** [datetime.now().strftime("%H:%M:%S")] *)
Variable current_time : string.

Definition numeric (items : list (string * Q)) : list (string * value) :=
  map (λ nv, (nv.1, VNum nv.2)) items.

Definition run_pcsf (prizes : prizes_t) (ppi : ppi_t) (params : params_t)
    (time add_attribs : bool) : M nx_graph :=
  _ ← (if time then emit (Print ("Current Time = " +:+ current_time)) else mret tt);
  pcsfGraph ← lift (graph_Graph ppi params);
  pcsfGraph ← lift (prepare_prizes pcsfGraph prizes);
  '(verts, edgs) ← lift (pcsf pcsfGraph);
  '(resultForest, _) ← lift (output_forest_as_networkx pcsfGraph verts edgs);
  if add_attribs then
    b ← lift (betweenness_centrality resultForest);
    let resultForest := set_node_attributes resultForest "b_centrality" (numeric b) in
    ev ← lift (eigenvector_centrality resultForest);
    let resultForest := set_node_attributes resultForest "ev_centrality" (numeric ev) in
    deg ← lift (degree_centrality resultForest);
    let resultForest := set_node_attributes resultForest "deg_centrality" (numeric deg) in
    _ ← lift (resolve run_pcsf_locals "community");
    clusters ← lift (best_partition resultForest);
    let resultForest :=
      set_node_attributes resultForest "louvain_clusters"
        (map (λ nc : string * nat, (nc.1, VStr (pretty nc.2))) clusters) in
    mret resultForest
  else mret resultForest.

End Solver.

(** ** Inputs used in the examples *)

(** The chain A - B - C with weights 1 and 2. *)
Definition chain_rows : list (string * string * Q) :=
  [ ("A", "B", 1%Q); ("B", "C", 2%Q) ].

(** Two components: A - B and C - D. *)
Definition split_net : edge_table :=
  EdgeTable "source" "target" "cost" [ ("A", "B", 1%Q); ("C", "D", 1%Q) ].

(** The chain A - B - C - D - E with unit costs. *)
Definition chain_five : edge_table :=
  EdgeTable "source" "target" "cost"
    [ ("A", "B", 1%Q); ("B", "C", 1%Q); ("C", "D", 1%Q); ("D", "E", 1%Q) ].

(** Two nodes that carry the attribute "score". *)
Definition scored_graph : nx_graph :=
  set_node_attributes (NxGraph ["n1"; "n2"] ∅ ∅) "score"
    [ ("n1", VNum (1 # 10)); ("n2", VNum (1 # 2)) ].

(** Two named solutions that share one element. *)
Definition two_solutions : gmap string (list string) :=
  {[ "s1" := ["a"; "b"]; "s2" := ["b"; "c"] ]}.

(** A solved forest of one edge, and a solver that returns it. *)
Definition small_forest : nx_graph :=
  add_edge "P1" "P2" "cost" (1 # 2) empty_graph.

Definition stub_Graph (ppi params : unit) : result unit := Ok tt.
Definition stub_prepare_prizes (g prizes : unit) : result unit := Ok tt.
Definition stub_pcsf (g : unit) : result (unit * unit) := Ok (tt, tt).
Definition stub_output_forest (g verts edgs : unit) : result (nx_graph * nx_graph) :=
  Ok (small_forest, small_forest).
Definition stub_centrality (x : Q) (G : nx_graph) : result (list (string * Q)) :=
  Ok (map (λ n, (n, x)) (g_nodes G)).
Definition stub_partition (G : nx_graph) : result (list (string * nat)) :=
  Ok (map (λ n, (n, 0)) (g_nodes G)).

(** What a returned mapping holds at the given keys, with its size. *)
Definition costs_at (r : result (option (gmap (string * string) Q)))
    (keys : list (string * string)) : option (list (option Q) * nat) :=
  match r with
  | Ok (Some d) => Some (map (λ k, d !! k) keys, size d)
  | _ => None
  end.

(** The graph [get_path_costs] builds from its table. *)
Abbreviation graph_of adj_list :=
  (from_pandas_edgelist adj_list (col0 adj_list) (col1 adj_list) (col2 adj_list)).

(** A random source that yields [a], then [b], then zeros. *)
Definition two_draws (a b : nat) : nat → nat :=
  λ k, match k with 0 => a | 1 => b | _ => 0 end.

(** ** Notions used to state further properties *)

(** The values [get_network_details] puts in the column of attribute [a]. *)
Abbreviation column_values G a := ((get_node_attributes G a).*2).

(** The step of the loop over [atts]. *)
Abbreviation add_column G :=
  (λ (r : result data_frame) (a : string), df ← r; set_column df a (column_values G a)).

(** The table while it is assembled: indexed by the nodes, one column per
    attribute seen so far, holding the values of that attribute. *)
Definition table_of (G : nx_graph) (seen : list string) (df : data_frame) : Prop :=
  df_index df = g_nodes G
  ∧ df_columns df = map (λ a, (a, column_values G a)) (column_labels df)
  ∧ NoDup (column_labels df)
  ∧ ∀ a, a ∈ column_labels df ↔ a ∈ seen.

(** The row computed for a pair of keys. *)
Abbreviation similarity_row res_dict :=
  (λ k : string * string,
     G1 ← getitem res_dict k.1;
     G2 ← getitem res_dict k.2;
     m ← _get_similarity G1 G2;
     Ok (k.1, k.2, m)).

(** * Properties *)

(** ** Running monadic code *)

Lemma run_bind {A B} (c : M A) (f : A → M B) (w : world) :
  run (c ≫= f) w =
  match run c w with
  | (w', Ok a) => run (f a) w'
  | (w', Raise e) => (w', Raise e)
  end.
Proof. reflexivity. Qed.

Lemma run_ret {A} (a : A) (w : world) : run (mret a) w = (w, Ok a).
Proof. reflexivity. Qed.

Lemma run_lift {A} (r : result A) (w : world) : run (lift r) w = (w, r).
Proof. reflexivity. Qed.

(** ** Set-overlap similarity *)

Lemma Qred_same (k : nat) : Qred (Z.of_nat (S k) # Pos.of_nat (S k)) = 1%Q.
Proof.
  change 1%Q with (Qred 1). apply Qred_complete.
  unfold Qeq. simpl Qnum. simpl Qden. lia.
Qed.

Lemma py_truediv_same (n : nat) : n ≠ 0 → py_truediv n n = Ok 1%Q.
Proof.
  destruct n as [|k]; [done|]. intros _. unfold py_truediv. by rewrite Qred_same.
Qed.

Lemma size_list_to_set_pos (a : list string) :
  a ≠ [] → size (list_to_set a : gset string) ≠ 0.
Proof.
  destruct a as [|x a]; [done|]. intros _.
  apply size_non_empty_iff. set_solver.
Qed.

Lemma size_union_zero (a b : list string) :
  size (list_to_set a ∪ list_to_set b : gset string) = 0 ↔ a = [] ∧ b = [].
Proof.
  split.
  - intros Hs. apply size_empty_iff in Hs.
    destruct a as [|x a]; [|set_solver]. destruct b as [|y b]; [done|set_solver].
  - intros [-> ->]. done.
Qed.

(** C9: for non-empty lists the set-overlap similarity is symmetric, and the
    similarity of a list with itself is exactly 1. *)
Theorem get_similarity_symmetric_reflexive (a b : list string) :
  a ≠ [] → b ≠ [] →
  _get_similarity a b = _get_similarity b a
  ∧ _get_similarity a a = Ok 1%Q
  ∧ _get_similarity b b = Ok 1%Q.
Proof.
  intros Ha Hb. unfold _get_similarity. split_and!.
  - by rewrite (comm_L (∩) (list_to_set a)), (comm_L (∪) (list_to_set a)).
  - rewrite (idemp_L (∩)), (idemp_L (∪)).
    apply py_truediv_same. by apply size_list_to_set_pos.
  - rewrite (idemp_L (∩)), (idemp_L (∪)).
    apply py_truediv_same. by apply size_list_to_set_pos.
Qed.

Lemma get_similarity_symmetric_reflexive_witness :
  _get_similarity ["a"; "b"] ["b"; "c"; "c"] = _get_similarity ["b"; "c"; "c"] ["a"; "b"]
  ∧ _get_similarity ["a"; "b"] ["a"; "b"] = Ok 1%Q
  ∧ _get_similarity ["b"; "c"; "c"] ["b"; "c"; "c"] = Ok 1%Q.
Proof.
  apply (get_similarity_symmetric_reflexive ["a"; "b"] ["b"; "c"; "c"]); discriminate.
Defined.

(** The division fails exactly when both lists are empty. *)
Lemma get_similarity_raises_iff (a b : list string) :
  _get_similarity a b = Raise ZeroDivisionError ↔ a = [] ∧ b = [].
Proof.
  unfold _get_similarity, py_truediv.
  destruct (size (list_to_set a ∪ list_to_set b : gset string)) as [|k] eqn:Hk.
  - apply size_union_zero in Hk. tauto.
  - split; [discriminate|]. intros Hab. apply size_union_zero in Hab. congruence.
Qed.

(** C10: on two empty lists the division by the size of the empty union
    raises [ZeroDivisionError]; on non-empty lists it returns a number, so the
    precondition cannot be dropped and is enough. *)
Theorem get_similarity_division_defined :
  _get_similarity [] [] = Raise ZeroDivisionError
  ∧ ∀ a b : list string, a ≠ [] → b ≠ [] → ∃ q : Q, _get_similarity a b = Ok q.
Proof.
  split; [reflexivity|]. intros a b Ha _.
  destruct (_get_similarity a b) as [q|e] eqn:Hq; [by exists q|].
  assert (e = ZeroDivisionError) as ->.
  { revert Hq. unfold _get_similarity, py_truediv. destruct (size (_ ∪ _)); congruence. }
  apply get_similarity_raises_iff in Hq. by destruct Hq.
Qed.

Lemma get_similarity_division_defined_witness :
  ∃ q : Q, _get_similarity ["a"; "b"] ["b"] = Ok q.
Proof.
  apply (proj2 get_similarity_division_defined ["a"; "b"] ["b"]); discriminate.
Defined.

(** ** Validation of the sampling proportion *)

(** C6: a proportion outside (0, 1] makes [get_path_costs] print the
    validation message and return [None]; nothing is raised, no graph is
    built and no random number is drawn. *)
Theorem get_path_costs_invalid_proportion (rng : nat → nat) (seeds : list string)
    (adj_list : edge_table) (print_prog : bool) (p : Q) (w : world) :
  (p <= 0 ∨ 1 < p)%Q →
  run (get_path_costs rng seeds adj_list print_prog p) w
  = (World (trace w ++ [Print "Sampled proportion must be in (0, 1]"]) (draws w),
     Ok None).
Proof.
  intros Hp. unfold get_path_costs. rewrite run_bind.
  unfold try_except at 1. cbn -[Qle_bool].
  destruct (Qle_bool p 0) eqn:H0; cbn -[Qle_bool]; [reflexivity|].
  destruct (Qle_bool p 1) eqn:H1; cbn -[Qle_bool]; [|reflexivity].
  exfalso. destruct Hp as [Hp|Hp].
  - apply Qle_bool_iff in Hp. congruence.
  - apply Qle_bool_iff in H1. by apply Qlt_not_le in Hp.
Qed.

Lemma get_path_costs_invalid_proportion_witness :
  run (get_path_costs (λ _, 0) ["A"; "B"] (EdgeTable "source" "target" "cost" [("A", "B", 1%Q)])
         false (3 # 2)) world0
  = (World [Print "Sampled proportion must be in (0, 1]"] 0, Ok None).
Proof.
  apply (get_path_costs_invalid_proportion (λ _, 0) ["A"; "B"]
           (EdgeTable "source" "target" "cost" [("A", "B", 1%Q)]) false (3 # 2) world0).
  right. reflexivity.
Defined.

(** ** The ID mapper *)

Lemma py_dict_lookup_aux (items : list (string * string)) (d : gmap string string)
    (s : string) :
  foldl (λ d kv, <[kv.1 := kv.2]> d) d items !! s
  = match mapped_value items s with Some v => Some v | None => d !! s end.
Proof.
  revert d. induction items as [|[k v] items IH]; intros d; [done|].
  cbn. rewrite IH. destruct (mapped_value items s) as [v'|]; [done|].
  destruct (String.eqb_spec k s) as [->|Hne].
  - by rewrite lookup_insert_eq.
  - by rewrite lookup_insert_ne.
Qed.

Lemma py_dict_lookup (items : list (string * string)) (s : string) :
  py_dict items !! s = mapped_value items s.
Proof.
  unfold py_dict. rewrite py_dict_lookup_aux. by destruct (mapped_value items s).
Qed.

Lemma mapped_value_unmapped (items : list (string * string)) (s : string) :
  s ∉ items.*1 → mapped_value items s = None.
Proof.
  induction items as [|[k v] items IH]; [done|]. cbn. intros Hs.
  apply not_elem_of_cons in Hs as [Hk Hs]. rewrite (IH Hs).
  destruct (String.eqb_spec k s) as [->|Hne]; [done|done].
Qed.

Lemma mapped_value_row (items : list (string * string)) (s v : string) :
  mapped_value items s = Some v → (s, v) ∈ items.
Proof.
  induction items as [|[k v0] items IH]; [done|]. cbn.
  destruct (mapped_value items s) as [v'|].
  - intros Hv. right. by apply IH.
  - destruct (String.eqb_spec k s) as [->|Hne]; [|done]. intros Hv.
    injection Hv as ->. left.
Qed.

Lemma run_translate (d : gmap string string) (ids out : list string) (w : world) :
  run (translate d ids out) w = (w, Ok (out ++ map (λ s, default s (d !! s)) ids)).
Proof.
  revert out. induction ids as [|s ids IH]; intros out.
  - cbn. by rewrite app_nil_r.
  - cbn [translate]. rewrite run_bind. unfold try_except at 1, getitem. cbn.
    destruct (d !! s) as [v|] eqn:Hs; cbn; rewrite IH, <- app_assoc; done.
Qed.

(** C8: both converters translate every ID the mapping file knows to its
    mapped value and pass every other ID through unchanged. *)
Theorem id_mapper_translates (read_csv : string → result table) (map_path : string)
    (tmp : table) (strings names ids : list string) (w : world) :
  read_csv map_path = Ok tmp →
  column tmp "STRING" = Ok strings →
  column tmp "display name" = Ok names →
  run (convert_to_gene_symbol read_csv ids map_path) w
  = (w, Ok (map (λ s, default s (mapped_value (zip strings names) s)) ids))
  ∧ run (convert_to_string_id read_csv ids map_path) w
    = (w, Ok (map (λ s, default s (mapped_value (zip names strings) s)) ids))
  ∧ (∀ items s, s ∉ items.*1 → default s (mapped_value items s) = s)
  ∧ (∀ items s v, mapped_value items s = Some v → (s, v) ∈ items).
Proof.
  intros Hf Hs Hn. split_and!.
  - unfold convert_to_gene_symbol. cbn. rewrite Hf. cbn. rewrite Hs. cbn.
    rewrite Hn. cbn. rewrite run_translate. cbn. do 2 f_equal. apply map_ext. intros s.
    by rewrite py_dict_lookup.
  - unfold convert_to_string_id. cbn. rewrite Hf. cbn. rewrite Hn. cbn.
    rewrite Hs. cbn. rewrite run_translate. cbn. do 2 f_equal. apply map_ext. intros s.
    by rewrite py_dict_lookup.
  - intros items s Hs'. by rewrite mapped_value_unmapped.
  - apply mapped_value_row.
Qed.

Lemma id_mapper_translates_witness :
  run (convert_to_gene_symbol
         (λ _, Ok [("STRING", ["9606.ENSP1"]); ("display name", ["TP53"])])
         ["9606.ENSP1"; "UNKNOWN_ID"] "map.tsv") world0
  = (world0, Ok ["TP53"; "UNKNOWN_ID"]).
Proof.
  exact (proj1 (id_mapper_translates
                  (λ _, Ok [("STRING", ["9606.ENSP1"]); ("display name", ["TP53"])])
                  "map.tsv" [("STRING", ["9606.ENSP1"]); ("display name", ["TP53"])]
                  ["9606.ENSP1"] ["TP53"] ["9606.ENSP1"; "UNKNOWN_ID"] world0
                  eq_refl eq_refl eq_refl)).
Defined.

(** ** The sampling loop *)

(** One pass of the loop body, spelled out. *)
Lemma run_sample_step (rng : nat → nat) (G : nx_graph) (print_prog : bool)
    (samples i : nat) (combs : list (string * string))
    (path_costs : gmap (string * string) Q) (w : world) :
  run (sample_step rng G print_prog samples i combs path_costs) w
  = match combs !! (rng (draws w) `mod` length combs) with
    | None => (World (trace w ++ progress_line print_prog i samples) (draws w),
               Raise ValueError)
    | Some (home, dest) =>
        (World (trace w ++ progress_line print_prog i samples
                        ++ [Draw (rng (draws w) `mod` length combs); PathQuery home dest])
               (S (draws w)),
         match dijkstra_path_length G home dest "cost" with
         | Ok c => Ok (delete (rng (draws w) `mod` length combs) combs,
                       <[(home, dest) := c]> path_costs)
         | Raise _ => Raise (NameError "NetworkXNoPath")
         end)
    end.
Proof.
  unfold sample_step. rewrite run_bind.
  assert (run (if print_prog then emit (PrintProgress (progress i samples)) else mret tt) w
          = (World (trace w ++ progress_line print_prog i samples) (draws w), Ok tt)) as ->.
  { destruct print_prog; cbn; [done|]. rewrite app_nil_r. by destruct w. }
  rewrite run_bind. unfold randrange at 1. cbn -[Nat.modulo].
  destruct (length combs) as [|n] eqn:Hlen.
  { apply nil_length_inv in Hlen as ->. done. }
  cbn -[Nat.modulo pop]. unfold pop.
  destruct (combs !! (rng (draws w) `mod` S n)) as [[home dest]|] eqn:Hk.
  - cbn -[Nat.modulo]. rewrite <- !app_assoc. cbn -[Nat.modulo].
    destruct (dijkstra_path_length G home dest "cost"); reflexivity.
  - exfalso. apply lookup_ge_None in Hk.
    pose proof (Nat.mod_upper_bound (rng (draws w)) (S n)) as Hb. lia.
Qed.

(** Only the drawn indices matter: two random sources that lead to the same
    indices lead to the same run. *)
Lemma sample_loop_ext (rng rng' : nat → nat) (G : nx_graph) (print_prog : bool)
    (samples todo i : nat) (combs : list (string * string))
    (path_costs : gmap (string * string) Q) (w : world) :
  (∀ k, k < todo →
        rng (draws w + k) `mod` (length combs - k)
        = rng' (draws w + k) `mod` (length combs - k)) →
  run (sample_loop rng G print_prog samples todo i combs path_costs) w
  = run (sample_loop rng' G print_prog samples todo i combs path_costs) w.
Proof.
  revert i combs path_costs w.
  induction todo as [|todo IH]; intros i combs path_costs w Hrng; [done|].
  cbn [sample_loop]. rewrite !run_bind, !run_sample_step.
  pose proof (Hrng 0 ltac:(lia)) as H0.
  rewrite Nat.add_0_r, Nat.sub_0_r in H0. rewrite <- H0.
  destruct (combs !! (rng (draws w) `mod` length combs)) as [[home dest]|] eqn:Hk;
    [|done].
  destruct (dijkstra_path_length G home dest "cost"); [|done].
  apply IH. intros k Hlt. cbn [fst snd draws].
  rewrite length_delete by eauto.
  replace (S (draws w) + k) with (draws w + S k) by lia.
  replace (length combs - 1 - k) with (length combs - S k) by lia.
  apply Hrng. lia.
Qed.

Lemma attempted_app (tr1 tr2 : list event) :
  attempted (tr1 ++ tr2) = attempted tr1 ++ attempted tr2.
Proof. apply omap_app. Qed.

Lemma attempted_progress_line (print_prog : bool) (i samples : nat) :
  attempted (progress_line print_prog i samples) = [].
Proof. by destruct print_prog. Qed.

(** What the loop attempts: pairwise different pending pairs, at most one per
    pass, and exactly one per pass when the loop runs to its end. *)
Lemma sample_loop_attempts (rng : nat → nat) (G : nx_graph) (print_prog : bool)
    (samples todo i : nat) (combs : list (string * string))
    (path_costs : gmap (string * string) Q) (w : world) :
  NoDup combs → (todo ≤ length combs)%nat →
  ∃ att : list (string * string),
    attempted (trace (run (sample_loop rng G print_prog samples todo i combs path_costs) w).1)
    = attempted (trace w) ++ att
    ∧ NoDup att
    ∧ (∀ x, x ∈ att → x ∈ combs)
    ∧ (length att ≤ todo)%nat
    ∧ (is_ok (run (sample_loop rng G print_prog samples todo i combs path_costs) w).2 = true
       → length att = todo).
Proof.
  revert i combs path_costs w.
  induction todo as [|todo IH]; intros i combs path_costs w Hnd Hlen.
  { exists []. cbn. rewrite app_nil_r.
    split_and!; [done|constructor|by intros x ?%elem_of_nil|done|done]. }
  cbn [sample_loop]. rewrite run_bind, run_sample_step.
  set (k := rng (draws w) `mod` length combs).
  assert (k < length combs) as Hk by (apply Nat.mod_upper_bound; lia).
  destruct (lookup_lt_is_Some_2 combs k Hk) as [[home dest] Hx]. rewrite Hx.
  pose proof (delete_Permutation combs k _ Hx) as Hperm.
  assert (NoDup ((home, dest) :: delete k combs)) as Hnd' by by rewrite <- Hperm.
  apply NoDup_cons in Hnd' as [Hnotin Hnd'].
  destruct (dijkstra_path_length G home dest "cost") as [c|e].
  - cbn [fst snd].
    destruct (IH (S i) (delete k combs) (<[(home, dest) := c]> path_costs)
                (World (trace w ++ progress_line print_prog i samples
                                ++ [Draw k; PathQuery home dest]) (S (draws w)))
                Hnd') as (att & Hatt & Hnd_att & Hsub & Hle & Hok).
    { rewrite length_delete by eauto. lia. }
    exists ((home, dest) :: att). split_and!.
    + rewrite Hatt. cbn [trace]. rewrite !attempted_app, attempted_progress_line.
      cbn. by rewrite <- app_assoc.
    + apply NoDup_cons. split; [|done]. intros Hin. apply Hnotin. by apply Hsub.
    + intros x [->|Hin]%elem_of_cons.
      * apply list_elem_of_lookup. eauto.
      * eapply list_elem_of_delete_inv. by apply Hsub.
    + cbn. lia.
    + intros Hr. cbn. f_equal. by apply Hok.
  - exists [(home, dest)]. cbn [fst snd trace]. split_and!.
    + rewrite !attempted_app, attempted_progress_line. done.
    + apply NoDup_singleton.
    + intros x ->%list_elem_of_singleton. apply list_elem_of_lookup. eauto.
    + cbn. lia.
    + done.
Qed.

(** ** Pairs of seeds *)

Lemma elem_of_combinations_cons {A} (x : A) (l : list A) (p : A * A) :
  p ∈ combinations (x :: l) ↔ (p.1 = x ∧ p.2 ∈ l) ∨ p ∈ combinations l.
Proof.
  cbn. rewrite elem_of_app, list_elem_of_fmap. destruct p as [a b]. cbn.
  split; intros [H|H]; auto; left.
  - destruct H as (y & [= -> ->] & Hy). done.
  - destruct H as [-> Hb]. by exists b.
Qed.

Lemma elem_of_combinations_members {A} (l : list A) (a b : A) :
  (a, b) ∈ combinations l → a ∈ l ∧ b ∈ l.
Proof.
  induction l as [|x l IH]; [by intros ?%elem_of_nil|].
  rewrite elem_of_combinations_cons. cbn. intros [[-> Hb]|Hin].
  - split; [left|by right].
  - destruct (IH Hin). split; by right.
Qed.

Lemma combinations_length {A} (l : list A) :
  length (combinations l) = length l * (length l - 1) / 2.
Proof.
  assert (2 * length (combinations l) = length l * (length l - 1)) as H.
  { induction l as [|x l IH]; [done|]. cbn [combinations].
    rewrite length_app, length_map. cbn [length]. nia. }
  rewrite <- H, Nat.mul_comm. by rewrite Nat.div_mul.
Qed.

Lemma combinations_NoDup {A} (l : list A) : NoDup l → NoDup (combinations l).
Proof.
  induction 1 as [|x l Hx Hnd IH]; [constructor|].
  cbn. apply NoDup_app. split_and!.
  - apply NoDup_fmap_2; [|done]. by intros ?? [= ->].
  - intros [a b] (y & [= -> ->] & Hy)%list_elem_of_fmap Hin.
    apply elem_of_combinations_members in Hin. tauto.
  - done.
Qed.

(** With distinct seeds no pair is listed in both orders, and no seed is
    paired with itself. *)
Lemma combinations_unordered {A} (l : list A) (a b : A) :
  NoDup l → (a, b) ∈ combinations l → a ≠ b ∧ (b, a) ∉ combinations l.
Proof.
  induction 1 as [|x l Hx Hnd IH]; [by intros ?%elem_of_nil|].
  rewrite !elem_of_combinations_cons. cbn. intros [[-> Hb]|Hin].
  - split; [by intros ->|]. intros [[-> _]|Hin]; [done|].
    apply elem_of_combinations_members in Hin. tauto.
  - destruct (IH Hin) as [Hne Hnot]. split; [done|].
    apply elem_of_combinations_members in Hin.
    intros [[-> _]|Hin']; [tauto|done].
Qed.

(** ** The number of samples *)

Lemma py_int_floor (q : Q) : (0 <= q)%Q → py_int q = Qfloor q.
Proof.
  destruct q as [n d]. unfold py_int, Qle, Qfloor. cbn. intros Hn.
  apply Z.quot_div_nonneg; lia.
Qed.

(** The float product on three inputs: 10 * 0.7 is 7.0, 3 * (1/3) is 1.0 and
    300 * 0.41 is 122.99999999999999, where the exact products of the same
    floats have the integer parts 6, 0 and 122. *)
Lemma sample_count_examples :
  sample_count 10 (float_literal (7 # 10)) = 7
  ∧ sample_count 3 (float_literal (1 # 3)) = 1
  ∧ sample_count 300 (float_literal (41 # 100)) = 122
  ∧ Qfloor (10 * float_literal (7 # 10)) = 6%Z
  ∧ Qfloor (3 * float_literal (1 # 3)) = 0%Z
  ∧ Qfloor (300 * float_literal (41 # 100)) = 122%Z.
Proof. vm_compute. done. Qed.

(** The float sum 0.1 + 0.2 is 0.30000000000000004, and that is the length
    the path query gives for a chain with these two weights. *)
Lemma float_sum_example :
  round_binary64 (float_literal (1 # 10) + float_literal (2 # 10))
  = (1351079888211149 # 4503599627370496)%Q
  ∧ dijkstra_path_length
      (from_pandas_edgelist
         (EdgeTable "source" "target" "cost"
            [ ("A", "B", float_literal (1 # 10)); ("B", "C", float_literal (2 # 10)) ])
         "source" "target" "cost")
      "A" "C" "cost"
    = Ok (1351079888211149 # 4503599627370496)%Q.
Proof. vm_compute. done. Qed.

(** Rounding to binary64 does not cross an integer: below 2 ^ 53 every
    integer is a float. *)
Lemma round_half_even_ge (a : Z) (b : positive) (N : Z) :
  (N * Zpos b <= a)%Z → (N <= round_half_even a b)%Z.
Proof.
  intros H. unfold round_half_even.
  pose proof (Z.div_mod a (Zpos b) ltac:(lia)) as Hdm.
  pose proof (Z.mod_pos_bound a (Zpos b) ltac:(lia)) as Hr.
  assert (N <= a / Zpos b)%Z by nia.
  destruct (2 * (a mod Zpos b) ?= Zpos b)%Z; [destruct (Z.even _)| |]; lia.
Qed.

Lemma round_half_even_le (a : Z) (b : positive) (N : Z) :
  (a <= N * Zpos b)%Z → (round_half_even a b <= N)%Z.
Proof.
  intros H. unfold round_half_even.
  pose proof (Z.div_mod a (Zpos b) ltac:(lia)) as Hdm.
  pose proof (Z.mod_pos_bound a (Zpos b) ltac:(lia)) as Hr.
  assert (a / Zpos b <= N)%Z as Hq by nia.
  destruct (Z.eq_dec (a / Zpos b)%Z N) as [Heq|Hne].
  - assert (a mod Zpos b = 0)%Z as -> by nia.
    change (2 * 0)%Z with 0%Z. cbn. lia.
  - destruct (2 * (a mod Zpos b) ?= Zpos b)%Z; [destruct (Z.even _)| |]; lia.
Qed.

Lemma round_binary64_ge (x : Q) (k : Z) :
  (0 <= x)%Q → (x < inject_Z (2 ^ 53))%Q →
  (inject_Z k <= x)%Q → (inject_Z k <= round_binary64 x)%Q.
Proof.
  destruct x as [n d]. intros H0 Hlt Hk. unfold Qle, Qlt in H0, Hlt, Hk.
  cbn -[Z.pow] in H0, Hlt, Hk. unfold round_binary64. cbn [Qnum Qden].
  destruct n as [|n|n]; [unfold Qle; cbn; lia| |lia].
  unfold round_binary64_pos.
  destruct (Z.ltb_spec (Zpos n) (2 ^ 53 * Zpos d)) as [_|Hge]; [|lia].
  set (j := Z.min 1074 (Z.max 0 (52 - binade (Zpos n) d))).
  assert (0 <= j)%Z as Hj by lia.
  rewrite Qred_correct. unfold Qle. cbn -[Z.pow Z.mul].
  rewrite Z2Pos.id by (apply Z.pow_pos_nonneg; lia).
  assert (0 < 2 ^ j)%Z as Hpow by (apply Z.pow_pos_nonneg; lia).
  pose proof (round_half_even_ge (Zpos n * 2 ^ j) d (k * 2 ^ j) ltac:(nia)). lia.
Qed.

Lemma round_binary64_le (x : Q) (k : Z) :
  (0 <= x)%Q → (x < inject_Z (2 ^ 53))%Q →
  (x <= inject_Z k)%Q → (round_binary64 x <= inject_Z k)%Q.
Proof.
  destruct x as [n d]. intros H0 Hlt Hk. unfold Qle, Qlt in H0, Hlt, Hk.
  cbn -[Z.pow] in H0, Hlt, Hk. unfold round_binary64. cbn [Qnum Qden].
  destruct n as [|n|n]; [unfold Qle; cbn; lia| |lia].
  unfold round_binary64_pos.
  destruct (Z.ltb_spec (Zpos n) (2 ^ 53 * Zpos d)) as [_|Hge]; [|lia].
  set (j := Z.min 1074 (Z.max 0 (52 - binade (Zpos n) d))).
  assert (0 <= j)%Z as Hj by lia.
  rewrite Qred_correct. unfold Qle. cbn -[Z.pow Z.mul].
  rewrite Z2Pos.id by (apply Z.pow_pos_nonneg; lia).
  assert (0 < 2 ^ j)%Z as Hpow by (apply Z.pow_pos_nonneg; lia).
  pose proof (round_half_even_le (Zpos n * 2 ^ j) d (k * 2 ^ j) ltac:(nia)). lia.
Qed.

Lemma len_times_nonneg (len : nat) (p : Q) :
  (0 <= p)%Q → (0 <= inject_Z (Z.of_nat len) * p)%Q.
Proof.
  intros Hp. apply Qmult_le_0_compat; [|done].
  change 0%Q with (inject_Z 0). rewrite <- Zle_Qle. lia.
Qed.

Lemma len_times_le (len : nat) (p : Q) :
  (p <= 1)%Q → (inject_Z (Z.of_nat len) * p <= inject_Z (Z.of_nat len))%Q.
Proof.
  intros Hp. rewrite <- (Qmult_1_r (inject_Z (Z.of_nat len))) at 2.
  rewrite !(Qmult_comm (inject_Z (Z.of_nat len))).
  apply Qmult_le_compat_r; [done|].
  change 0%Q with (inject_Z 0). rewrite <- Zle_Qle. lia.
Qed.

(** The rounded product lies on the same side of every integer as the
    exact one. *)
Lemma len_times_float_ge (len : nat) (p : Q) (k : Z) :
  (0 <= p)%Q → (p <= 1)%Q →
  (inject_Z k <= inject_Z (Z.of_nat len) * p)%Q → (inject_Z k <= len_times_float len p)%Q.
Proof.
  intros Hp Hp1 Hk. unfold len_times_float.
  destruct (Z.ltb_spec (Z.of_nat len) (2 ^ 53)) as [Hlen|_]; [|done].
  apply round_binary64_ge; [by apply len_times_nonneg| |done].
  eapply Qle_lt_trans; [by apply len_times_le|]. by rewrite <- Zlt_Qlt.
Qed.

Lemma len_times_float_le (len : nat) (p : Q) (k : Z) :
  (0 <= p)%Q → (p <= 1)%Q →
  (inject_Z (Z.of_nat len) * p <= inject_Z k)%Q → (len_times_float len p <= inject_Z k)%Q.
Proof.
  intros Hp Hp1 Hk. unfold len_times_float.
  destruct (Z.ltb_spec (Z.of_nat len) (2 ^ 53)) as [Hlen|_]; [|done].
  apply round_binary64_le; [by apply len_times_nonneg| |done].
  eapply Qle_lt_trans; [by apply len_times_le|]. by rewrite <- Zlt_Qlt.
Qed.

Lemma sample_count_floor (len : nat) (p : Q) :
  (0 <= p)%Q → (p <= 1)%Q →
  (Z.to_nat (Qfloor (p * inject_Z (Z.of_nat len))) ≤ sample_count len p)%nat
  ∧ (sample_count len p ≤ Z.to_nat (Qfloor (p * inject_Z (Z.of_nat len))) + 1)%nat
  ∧ (sample_count len p ≤ len)%nat.
Proof.
  intros Hp Hp1. unfold range_len.
  rewrite (Qfloor_comp _ (inject_Z (Z.of_nat len) * p)) by apply Qmult_comm.
  set (x := (inject_Z (Z.of_nat len) * p)%Q).
  assert (0 <= len_times_float len p)%Q as H0.
  { by apply (len_times_float_ge len p 0), len_times_nonneg. }
  rewrite py_int_floor by done.
  assert (0 <= Qfloor x)%Z as Hx0.
  { rewrite <- (Qfloor_Z 0). by apply Qfloor_resp_le, len_times_nonneg. }
  assert (Qfloor x <= Qfloor (len_times_float len p))%Z as Hlo.
  { rewrite <- (Qfloor_Z (Qfloor x)) at 1.
    apply Qfloor_resp_le, len_times_float_ge; [done..|apply Qfloor_le]. }
  assert (Qfloor (len_times_float len p) <= Qfloor x + 1)%Z as Hhi.
  { rewrite <- (Qfloor_Z (Qfloor x + 1)).
    apply Qfloor_resp_le, len_times_float_le; [done..|apply Qlt_le_weak, Qlt_floor]. }
  assert (Qfloor (len_times_float len p) <= Z.of_nat len)%Z as Hlen.
  { rewrite <- (Qfloor_Z (Z.of_nat len)).
    apply Qfloor_resp_le, len_times_float_le; [done..|by apply len_times_le]. }
  lia.
Qed.

Lemma samples_le_length (len : nat) (p : Q) :
  (0 < p)%Q → (p <= 1)%Q → (sample_count len p ≤ len)%nat.
Proof. intros Hp Hp1. by apply sample_count_floor; [apply Qlt_le_weak|]. Qed.

(** Proportion 1 selects every pair. *)
Lemma sample_count_all (len : nat) : sample_count len 1 = len.
Proof.
  destruct (sample_count_floor len 1) as (Hlo & _ & Hhi); [done..|].
  rewrite (Qfloor_comp _ (inject_Z (Z.of_nat len))) in Hlo by apply Qmult_1_l.
  rewrite Qfloor_Z in Hlo. lia.
Qed.

Lemma run_get_path_costs_valid (rng : nat → nat) (seeds : list string)
    (adj_list : edge_table) (print_prog : bool) (p : Q) (w : world) :
  (0 < p)%Q → (p <= 1)%Q →
  run (get_path_costs rng seeds adj_list print_prog p) w
  = let samples := sample_count (length (combinations seeds)) p in
    let r := run (sample_loop rng
                    (from_pandas_edgelist adj_list (col0 adj_list) (col1 adj_list) (col2 adj_list))
                    print_prog samples samples 0 (combinations seeds) ∅)
                 (World (trace w ++ [BuildGraph]) (draws w)) in
    (r.1, match r.2 with Ok d => Ok (Some d) | Raise e => Raise e end).
Proof.
  intros Hp Hp1. unfold get_path_costs. rewrite run_bind.
  unfold try_except at 1. cbn -[Qle_bool sample_loop range_len py_int len_times_float].
  assert (Qle_bool p 0 = false) as ->.
  { apply not_true_is_false. rewrite Qle_bool_iff. by apply Qlt_not_le. }
  assert (Qle_bool p 1 = true) as -> by by apply Qle_bool_iff.
  cbn -[sample_loop range_len py_int len_times_float].
  rewrite run_bind.
  by destruct (run (sample_loop _ _ _ _ _ _ _ _) _) as [w' [d|e]].
Qed.

(** ** What [get_path_costs] attempts *)

(** A loop whose path queries all succeed runs to its end. *)
Lemma sample_loop_returns (rng : nat → nat) (G : nx_graph) (print_prog : bool)
    (samples todo i : nat) (combs : list (string * string))
    (path_costs : gmap (string * string) Q) (w : world) :
  (todo ≤ length combs)%nat →
  (∀ x, x ∈ combs → is_ok (dijkstra_path_length G x.1 x.2 "cost") = true) →
  is_ok (run (sample_loop rng G print_prog samples todo i combs path_costs) w).2 = true.
Proof.
  revert i combs path_costs w.
  induction todo as [|todo IH]; intros i combs path_costs w Hlen Hall; [done|].
  cbn [sample_loop]. rewrite run_bind, run_sample_step.
  set (k := rng (draws w) `mod` length combs).
  assert (k < length combs) as Hk by (apply Nat.mod_upper_bound; lia).
  destruct (lookup_lt_is_Some_2 combs k Hk) as [[home dest] Hx]. rewrite Hx.
  pose proof (Hall (home, dest)) as Hq. cbn in Hq.
  destruct (dijkstra_path_length G home dest "cost") as [c|e].
  - cbn [fst snd]. apply IH.
    + rewrite length_delete by eauto. lia.
    + intros x Hin. apply Hall. by eapply list_elem_of_delete_inv.
  - discriminate Hq. apply list_elem_of_lookup. eauto.
Qed.

(** C7, amended: with distinct seeds, a float proportion p in (0, 1] and
    path queries that succeed for every pair of seeds, the call returns, and
    the pairs handed to the shortest-path routine are pairwise different
    unordered pairs of seeds, drawn without replacement, exactly
    int(C(n,2) * p) of them, the product being the binary64 product.  That
    number is floor(p * C(n,2)) or one more, and at most C(n,2). *)
Theorem get_path_costs_attempts (rng : nat → nat) (seeds : list string)
    (adj_list : edge_table) (print_prog : bool) (p : Q) :
  NoDup seeds → (0 < p)%Q → (p <= 1)%Q →
  (∀ a b, (a, b) ∈ combinations seeds →
          is_ok (dijkstra_path_length (graph_of adj_list) a b "cost") = true) →
  let r := run (get_path_costs rng seeds adj_list print_prog p) world0 in
  let att := attempted (trace r.1) in
  let pairs := length seeds * (length seeds - 1) / 2 in
  is_ok r.2 = true
  ∧ NoDup att
  ∧ (∀ a b, (a, b) ∈ att → (a, b) ∈ combinations seeds ∧ a ≠ b ∧ (b, a) ∉ att)
  ∧ length att = sample_count pairs p
  ∧ (Z.to_nat (Qfloor (p * inject_Z (Z.of_nat pairs))) ≤ sample_count pairs p)%nat
  ∧ (sample_count pairs p ≤ Z.to_nat (Qfloor (p * inject_Z (Z.of_nat pairs))) + 1)%nat
  ∧ (sample_count pairs p ≤ pairs)%nat.
Proof.
  intros Hnd Hp Hp1 Hall. rewrite run_get_path_costs_valid by done. cbn zeta.
  rewrite <- combinations_length.
  set (samples := sample_count _ p).
  pose proof (samples_le_length (length (combinations seeds)) p Hp Hp1) as Hle.
  fold samples in Hle.
  destruct (sample_loop_attempts rng (graph_of adj_list)
              print_prog samples samples 0 (combinations seeds) ∅
              (World (trace world0 ++ [BuildGraph]) (draws world0)))
    as (att & Hatt & Hnd_att & Hsub & _ & Hok); [by apply combinations_NoDup|done|].
  pose proof (sample_loop_returns rng (graph_of adj_list) print_prog samples samples 0
                (combinations seeds) ∅
                (World (trace world0 ++ [BuildGraph]) (draws world0)) Hle) as Hret.
  cbn [fst snd]. rewrite Hatt. cbn [trace world0 app attempted omap].
  assert (is_ok (run (sample_loop rng (graph_of adj_list) print_prog samples samples 0
                        (combinations seeds) ∅)
                   (World (trace world0 ++ [BuildGraph]) (draws world0))).2 = true) as Hr.
  { apply Hret. intros [a b] Hin. by apply Hall. }
  split_and!.
  - by destruct (run _ _).2.
  - done.
  - intros a b Hin. pose proof (Hsub _ Hin) as Hc.
    destruct (combinations_unordered seeds a b Hnd Hc) as [Hne Hnot].
    split_and!; [done|done|]. intros Hin'. by apply Hnot, Hsub.
  - by apply Hok.
  - by apply sample_count_floor; [apply Qlt_le_weak|].
  - by apply sample_count_floor; [apply Qlt_le_weak|].
  - done.
Qed.

Lemma get_path_costs_attempts_witness :
  let r := run (get_path_costs (λ k, k) ["A"; "B"; "C"; "D"; "E"] chain_five false
                  (float_literal (41 # 100))) world0 in
  let att := attempted (trace r.1) in
  let pairs := 5 * (5 - 1) / 2 in
  is_ok r.2 = true
  ∧ NoDup att
  ∧ (∀ a b, (a, b) ∈ att
            → (a, b) ∈ combinations ["A"; "B"; "C"; "D"; "E"] ∧ a ≠ b ∧ (b, a) ∉ att)
  ∧ length att = sample_count pairs (float_literal (41 # 100))
  ∧ (Z.to_nat (Qfloor (float_literal (41 # 100) * inject_Z (Z.of_nat pairs)))
     ≤ sample_count pairs (float_literal (41 # 100)))%nat
  ∧ (sample_count pairs (float_literal (41 # 100))
     ≤ Z.to_nat (Qfloor (float_literal (41 # 100) * inject_Z (Z.of_nat pairs))) + 1)%nat
  ∧ (sample_count pairs (float_literal (41 # 100)) ≤ pairs)%nat.
Proof.
  apply (get_path_costs_attempts (λ k, k) ["A"; "B"; "C"; "D"; "E"] chain_five false
           (float_literal (41 # 100)));
    [compute_done|vm_compute; reflexivity|vm_compute; discriminate|].
  intros a b Hin. cbn in Hin.
  repeat (apply elem_of_cons in Hin as [Heq|Hin];
          [injection Heq as -> ->; vm_compute; reflexivity|]).
  by apply elem_of_nil in Hin.
Defined.

(** C7 as stated fails.  Five seeds on the chain A - B - C - D - E, every
    pair connected, and the float 0.7: the float product 10 * 0.7 is 7.0,
    so seven pairs are attempted, while 0.7 as a float is below 7/10 and
    floor(p * C(5,2)) is 6. *)
Lemma get_path_costs_attempts_counterexample :
  NoDup ["A"; "B"; "C"; "D"; "E"]
  ∧ (0 < float_literal (7 # 10))%Q ∧ (float_literal (7 # 10) <= 1)%Q
  ∧ length (attempted (trace (run (get_path_costs (λ _, 0) ["A"; "B"; "C"; "D"; "E"]
                                     chain_five false (float_literal (7 # 10))) world0).1))
    = 7
  ∧ Z.to_nat (Qfloor (float_literal (7 # 10) * inject_Z (Z.of_nat (5 * (5 - 1) / 2)))) = 6.
Proof.
  split_and!; [compute_done|vm_compute; reflexivity|vm_compute; discriminate
              |vm_compute; reflexivity|vm_compute; reflexivity].
Qed.

(** ** Three seeds, all pairs sampled *)

(** With three pending pairs and three passes, the run is fixed by the first
    draw, below 3, and the second, below 2. *)
Lemma sample_loop_three (rng : nat → nat) (G : nx_graph) (print_prog : bool)
    (x y z : string * string) (tr : list event) :
  ∃ a b, a < 3 ∧ b < 2 ∧
    run (sample_loop rng G print_prog 3 3 0 [x; y; z] ∅) (World tr 0)
    = run (sample_loop (two_draws a b) G print_prog 3 3 0 [x; y; z] ∅) (World tr 0).
Proof.
  exists (rng 0 `mod` 3), (rng 1 `mod` 2). split_and!.
  - apply Nat.mod_upper_bound. lia.
  - apply Nat.mod_upper_bound. lia.
  - apply sample_loop_ext. intros [|[|[|k]]] Hk; cbn -[Nat.modulo]; [| | |lia].
    + by rewrite Nat.Div0.mod_mod.
    + by rewrite Nat.Div0.mod_mod.
    + by rewrite !Nat.mod_1_r.
Qed.

Lemma costs_at_three (r : result (option (gmap (string * string) Q)))
    (k1 k2 k3 : string * string) (c1 c2 c3 : Q) (n : nat) :
  costs_at r [k1; k2; k3] = Some ([Some c1; Some c2; Some c3], n) →
  ∃ d, r = Ok (Some d)
       ∧ d !! k1 = Some c1 ∧ d !! k2 = Some c2 ∧ d !! k3 = Some c3 ∧ size d = n.
Proof.
  destruct r as [[d|]|e]; cbn; [|done..]. intros [= H1 H2 H3 Hn]. by exists d.
Qed.

(** On the chain A - B (1.0), B - C (2.0), given as a table whose third
    column is labelled "cost", with seeds A, B, C and proportion 1, every
    outcome of the random draws yields the costs 1 for (A, B), 3 for (A, C)
    and 2 for (B, C). *)
Lemma get_path_costs_chain (rng : nat → nat) (print_prog : bool)
    (source target : string) :
  ∃ d : gmap (string * string) Q,
    (run (get_path_costs rng ["A"; "B"; "C"]
            (EdgeTable source target "cost" chain_rows) print_prog 1) world0).2
    = Ok (Some d)
    ∧ d !! ("A", "B") = Some 1%Q
    ∧ d !! ("A", "C") = Some 3%Q
    ∧ d !! ("B", "C") = Some 2%Q
    ∧ size d = 3.
Proof.
  apply costs_at_three.
  rewrite run_get_path_costs_valid by done. cbn zeta. cbn [snd].
  change (range_len _) with 3. change (combinations _) with [("A", "B"); ("A", "C"); ("B", "C")].
  change (trace world0 ++ [BuildGraph]) with [BuildGraph]. change (draws world0) with 0.
  set (G := from_pandas_edgelist _ _ _ _).
  destruct (sample_loop_three rng G print_prog ("A", "B") ("A", "C") ("B", "C") [BuildGraph])
    as (a & b & Ha & Hb & ->).
  subst G.
  destruct print_prog; destruct a as [|[|[|a]]]; try lia; destruct b as [|[|b]]; try lia;
    vm_compute; reflexivity.
Qed.

(** C3: the same rows in a table whose third column is labelled "weight".
    The graph keeps the third column under its label, the path query asks
    for the attribute "cost", so every edge counts 1: whatever the draws,
    the call returns 1 for (A, B), 2 for (A, C) and 1 for (B, C), where the
    claim, and the docstring that takes the third column as the cost, have
    1, 3 and 2. *)
Theorem get_path_costs_chain_weight_label (rng : nat → nat) (print_prog : bool) :
  ∃ d : gmap (string * string) Q,
    (run (get_path_costs rng ["A"; "B"; "C"]
            (EdgeTable "source" "target" "weight" chain_rows) print_prog 1) world0).2
    = Ok (Some d)
    ∧ d !! ("A", "B") = Some 1%Q
    ∧ d !! ("A", "C") = Some 2%Q
    ∧ d !! ("B", "C") = Some 1%Q
    ∧ size d = 3.
Proof.
  apply costs_at_three.
  rewrite run_get_path_costs_valid by done. cbn zeta. cbn [snd].
  change (range_len _) with 3. change (combinations _) with [("A", "B"); ("A", "C"); ("B", "C")].
  change (trace world0 ++ [BuildGraph]) with [BuildGraph]. change (draws world0) with 0.
  set (G := from_pandas_edgelist _ _ _ _).
  destruct (sample_loop_three rng G print_prog ("A", "B") ("A", "C") ("B", "C") [BuildGraph])
    as (a & b & Ha & Hb & ->).
  subst G.
  destruct print_prog; destruct a as [|[|[|a]]]; try lia; destruct b as [|[|b]]; try lia;
    vm_compute; reflexivity.
Qed.

(** C2: seeds A, B, C on the network A - B, C - D.  The pairs (A, C) and
    (B, C) have no path; whatever the order of the draws, the call ends in
    [NameError] for the name [NetworkXNoPath] of the [except] clause, where
    the claim has it return the mapping with the single key (A, B). *)
Theorem get_path_costs_no_path_raises (rng : nat → nat) (print_prog : bool) :
  (run (get_path_costs rng ["A"; "B"; "C"] split_net print_prog 1) world0).2
  = Raise (NameError "NetworkXNoPath").
Proof.
  rewrite run_get_path_costs_valid by done. cbn zeta. cbn [snd].
  change (range_len _) with 3. change (combinations _) with [("A", "B"); ("A", "C"); ("B", "C")].
  change (trace world0 ++ [BuildGraph]) with [BuildGraph]. change (draws world0) with 0.
  set (G := from_pandas_edgelist _ _ _ _).
  destruct (sample_loop_three rng G print_prog ("A", "B") ("A", "C") ("B", "C") [BuildGraph])
    as (a & b & Ha & Hb & ->).
  subst G.
  destruct print_prog; destruct a as [|[|[|a]]]; try lia; destruct b as [|[|b]]; try lia;
    vm_compute; reflexivity.
Qed.

(** ** Names that are bound nowhere *)

Lemma networkx_unbound : resolve [] "networkx" = Raise (NameError "networkx").
Proof. reflexivity. Qed.

Lemma load_simMat (m : matrix) :
  load similarity_matrix_locals [("sim_mat", m)] "simMat" = Raise (NameError "simMat").
Proof. reflexivity. Qed.

Lemma load_sortBy (by_ : string) :
  load get_network_details_locals [("sort_by", by_)] "sortBy" = Raise (NameError "sortBy").
Proof. reflexivity. Qed.

(** C4: on two named solutions the four overlaps are computed, 1 on the
    diagonal and 1/3 off it, but the call ends in [NameError] for the name
    [simMat] of the [return] statement; no dictionary of solutions makes the
    call return a matrix. *)
Theorem make_solution_similarity_matrix_raises :
  similarity_rows two_solutions
  = Ok [ ("s1", "s1", 1%Q); ("s1", "s2", (1 # 3)%Q);
         ("s2", "s1", (1 # 3)%Q); ("s2", "s2", 1%Q) ]
  ∧ (run (make_solution_similarity_matrix two_solutions) world0).2
    = Raise (NameError "simMat")
  ∧ ∀ (res_dict : gmap string (list string)) (w : world),
      is_ok (run (make_solution_similarity_matrix res_dict) w).2 = false.
Proof.
  split_and!; [vm_compute; reflexivity..|].
  intros res_dict w. unfold make_solution_similarity_matrix.
  rewrite !run_bind, !run_lift.
  destruct (similarity_rows res_dict) as [rows|e]; [|done].
  rewrite !run_bind, !run_lift. destruct (pivot rows) as [m|e]; [|done].
  by rewrite run_lift, load_simMat.
Qed.

(** C5: with a [sort_by] attribute that is a column of the table, the call
    ends in [NameError] for the name [sortBy] instead of returning the sorted
    table, whatever [sort_values] does; no call with a [sort_by] that counts
    as true returns.  With an attribute that is not a column the assertion
    fails, as the claim says. *)
Theorem get_network_details_sort_raises
    (sort_values : data_frame → string → bool → result data_frame) :
  (run (get_network_details sort_values scored_graph ["score"] (Some "score")) world0).2
  = Raise (NameError "sortBy")
  ∧ (run (get_network_details sort_values scored_graph ["score"] (Some "degree")) world0).2
    = Raise AssertionError
  ∧ ∀ (G : nx_graph) (atts : list string) (sort_by : option string) (w : world),
      truthy sort_by
      && is_ok (run (get_network_details sort_values G atts sort_by) w).2 = false.
Proof.
  split_and!; [vm_compute; reflexivity..|].
  intros G atts sort_by w. destruct (truthy sort_by) eqn:Ht; [|done]. cbn [andb].
  unfold get_network_details. rewrite run_bind, run_lift.
  destruct (foldl _ _ atts) as [att_df|e]; [|done]. rewrite Ht.
  rewrite run_bind. unfold py_assert. rewrite run_lift.
  destruct (bound_in _ _); [|done].
  by rewrite run_bind, run_lift, load_sortBy.
Qed.

(** C1: with a solver that returns a forest and centrality measures that
    succeed, the default call ends in [NameError] for the name [community],
    so the forest is never returned with its four attributes; no default call
    returns at all, whatever the collaborators do. *)
Theorem run_pcsf_default_raises :
  (run (run_pcsf stub_Graph stub_prepare_prizes stub_pcsf stub_output_forest
          (stub_centrality 0) (stub_centrality (1 # 2)) (stub_centrality 1)
          stub_partition "12:00:00" tt tt tt false true) world0).2
  = Raise (NameError "community")
  ∧ ∀ (prizes_t ppi_t params_t pcsf_graph vertex_set edge_set : Type)
      (graph_Graph : ppi_t → params_t → result pcsf_graph)
      (prepare_prizes : pcsf_graph → prizes_t → result pcsf_graph)
      (pcsf : pcsf_graph → result (vertex_set * edge_set))
      (output_forest_as_networkx :
         pcsf_graph → vertex_set → edge_set → result (nx_graph * nx_graph))
      (betweenness eigenvector degree : nx_graph → result (list (string * Q)))
      (best_partition : nx_graph → result (list (string * nat)))
      (current_time : string) (prizes : prizes_t) (ppi : ppi_t) (params : params_t)
      (time : bool) (w : world),
      is_ok (run (run_pcsf graph_Graph prepare_prizes pcsf output_forest_as_networkx
                    betweenness eigenvector degree best_partition current_time
                    prizes ppi params time true) w).2 = false.
Proof.
  split; [vm_compute; reflexivity|]. intros.
  unfold run_pcsf. rewrite run_bind.
  assert (∃ w', run (if time then emit (Print ("Current Time = " +:+ current_time))
                     else mret tt) w = (w', Ok tt)) as [w' ->].
  { destruct time; eauto. }
  rewrite run_bind, run_lift. destruct (graph_Graph ppi params) as [g|e]; [|done].
  rewrite run_bind, run_lift. destruct (prepare_prizes g prizes) as [g'|e]; [|done].
  rewrite run_bind, run_lift. destruct (pcsf g') as [[verts edgs]|e]; [|done].
  rewrite run_bind, run_lift.
  destruct (output_forest_as_networkx g' verts edgs) as [[forest other]|e]; [|done].
  rewrite run_bind, run_lift. destruct (betweenness forest) as [b|e]; [|done].
  rewrite run_bind, run_lift. destruct (eigenvector _) as [ev|e]; [|done].
  rewrite run_bind, run_lift. destruct (degree _) as [deg|e]; [|done].
  reflexivity.
Qed.

(** * Further properties *)

(** ** The similarity as a function of the two element sets *)

Lemma get_similarity_sizes (a b : list string) (q : Q) :
  _get_similarity a b = Ok q →
  size (list_to_set a ∪ list_to_set b : gset string) ≠ 0
  ∧ q = Qred (Z.of_nat (size (list_to_set a ∩ list_to_set b : gset string))
              # Pos.of_nat (size (list_to_set a ∪ list_to_set b : gset string))).
Proof.
  unfold _get_similarity, py_truediv.
  destruct (size (list_to_set a ∪ list_to_set b : gset string)) as [|k]; [done|].
  intros [= <-]. done.
Qed.

Lemma Qred_frac_zero (i u : nat) :
  u ≠ 0 → Qred (Z.of_nat i # Pos.of_nat u) = 0%Q ↔ i = 0.
Proof.
  intros Hu. split.
  - intros Hq. pose proof (Qred_correct (Z.of_nat i # Pos.of_nat u)) as Hc.
    rewrite Hq in Hc. unfold Qeq in Hc. cbn in Hc. lia.
  - intros ->. change 0%Q with (Qred 0). apply Qred_complete. reflexivity.
Qed.

Lemma Qred_frac_one (i u : nat) :
  u ≠ 0 → Qred (Z.of_nat i # Pos.of_nat u) = 1%Q ↔ i = u.
Proof.
  intros Hu. split.
  - intros Hq. pose proof (Qred_correct (Z.of_nat i # Pos.of_nat u)) as Hc.
    rewrite Hq in Hc. unfold Qeq in Hc. cbn in Hc. lia.
  - intros ->. destruct u as [|k]; [done|]. apply Qred_same.
Qed.

(** X1: a similarity that is returned lies between 0 and 1. *)
Theorem get_similarity_bounds (a b : list string) (q : Q) :
  _get_similarity a b = Ok q → (0 <= q)%Q ∧ (q <= 1)%Q.
Proof.
  intros [Hu ->]%get_similarity_sizes.
  set (A := list_to_set a : gset string). set (B := list_to_set b : gset string).
  assert (size (A ∩ B) ≤ size (A ∪ B))%nat as Hle by (apply subseteq_size; set_solver).
  rewrite !Qred_correct. unfold Qle. cbn. lia.
Qed.

Lemma get_similarity_bounds_witness :
  (0 <= 1 # 3)%Q ∧ (1 # 3 <= 1)%Q.
Proof.
  apply (get_similarity_bounds ["a"; "b"] ["b"; "c"] (1 # 3)). vm_compute. reflexivity.
Defined.

Lemma list_to_set_elements (a a' : list string) :
  (∀ x, x ∈ a ↔ x ∈ a') → list_to_set a =@{gset string} list_to_set a'.
Proof. intros Ha. apply set_eq. intros x. by rewrite !elem_of_list_to_set. Qed.

(** X2: the similarity depends on the two lists only through their sets of
    elements: order and repetitions do not count. *)
Theorem get_similarity_elements (a a' b b' : list string) :
  (∀ x, x ∈ a ↔ x ∈ a') → (∀ x, x ∈ b ↔ x ∈ b') →
  _get_similarity a b = _get_similarity a' b'.
Proof.
  intros Ha Hb. unfold _get_similarity.
  by rewrite (list_to_set_elements a a' Ha), (list_to_set_elements b b' Hb).
Qed.

Lemma get_similarity_elements_witness :
  _get_similarity ["a"; "b"; "a"] ["c"; "b"] = _get_similarity ["b"; "a"] ["b"; "c"; "c"].
Proof.
  apply (get_similarity_elements ["a"; "b"; "a"] ["b"; "a"] ["c"; "b"] ["b"; "c"; "c"]);
    intros x; rewrite !elem_of_cons, !elem_of_nil; tauto.
Defined.

(** X3: unless both lists are empty, the similarity is 1 exactly when the
    two lists have the same elements. *)
Theorem get_similarity_one_iff (a b : list string) :
  a ≠ [] ∨ b ≠ [] →
  _get_similarity a b = Ok 1%Q ↔ ∀ x, x ∈ a ↔ x ∈ b.
Proof.
  intros Hne.
  assert (size (list_to_set a ∪ list_to_set b : gset string) ≠ 0) as Hu.
  { rewrite size_union_zero. tauto. }
  split.
  - intros [_ Hq]%get_similarity_sizes. symmetry in Hq.
    apply Qred_frac_one in Hq; [|done].
    assert (list_to_set a ∩ list_to_set b ≡@{gset string} list_to_set a ∪ list_to_set b) as Heq.
    { apply set_subseteq_size_equiv; [set_solver|lia]. }
    intros x. rewrite <- !(elem_of_list_to_set (C := gset string)). set_solver.
  - intros Hx. pose proof (list_to_set_elements a b Hx) as Hab.
    unfold _get_similarity. rewrite Hab, (idemp_L (∩)), (idemp_L (∪)).
    apply py_truediv_same. by rewrite Hab, (idemp_L (∪)) in Hu.
Qed.

Lemma get_similarity_one_iff_witness :
  _get_similarity ["a"; "b"] ["b"; "a"; "a"] = Ok 1%Q
  ↔ ∀ x, x ∈ ["a"; "b"] ↔ x ∈ ["b"; "a"; "a"].
Proof.
  apply (get_similarity_one_iff ["a"; "b"] ["b"; "a"; "a"]). left. discriminate.
Defined.

(** X4: unless both lists are empty, the similarity is 0 exactly when the
    two lists share no element; in particular when one of them is empty. *)
Theorem get_similarity_zero_iff (a b : list string) :
  a ≠ [] ∨ b ≠ [] →
  _get_similarity a b = Ok 0%Q ↔ ∀ x, x ∈ a → x ∉ b.
Proof.
  intros Hne.
  assert (size (list_to_set a ∪ list_to_set b : gset string) ≠ 0) as Hu.
  { rewrite size_union_zero. tauto. }
  split.
  - intros [_ Hq]%get_similarity_sizes. symmetry in Hq.
    apply Qred_frac_zero in Hq; [|done]. apply size_empty_iff in Hq.
    intros x Ha Hb. apply (elem_of_list_to_set (C := gset string)) in Ha, Hb. set_solver.
  - intros Hx. unfold _get_similarity, py_truediv.
    destruct (size (list_to_set a ∪ list_to_set b : gset string)) as [|k] eqn:Hk; [done|].
    f_equal. apply Qred_frac_zero; [done|]. apply size_empty_iff.
    intros x. rewrite elem_of_intersection, !elem_of_list_to_set. set_solver.
Qed.

Lemma get_similarity_zero_iff_witness :
  _get_similarity ["a"] [] = Ok 0%Q ↔ ∀ x, x ∈ ["a"] → x ∉ [].
Proof.
  apply (get_similarity_zero_iff ["a"] []). left. discriminate.
Defined.

(** ** Outcomes of the sampling loop *)

(** What a run of the loop leaves behind: the attempted pairs were pending,
    each draw is followed by one attempt, a returned dictionary holds the
    path length of every attempted pair and is otherwise unchanged, and the
    only exception is the [NameError] of the handler, after a query that
    failed. *)
Lemma sample_loop_outcome (rng : nat → nat) (G : nx_graph) (print_prog : bool)
    (samples todo i : nat) (combs : list (string * string))
    (path_costs : gmap (string * string) Q) (w : world) :
  (todo ≤ length combs)%nat →
  ∃ att : list (string * string),
    attempted (trace (run (sample_loop rng G print_prog samples todo i combs path_costs) w).1)
    = attempted (trace w) ++ att
    ∧ draws (run (sample_loop rng G print_prog samples todo i combs path_costs) w).1
      = draws w + length att
    ∧ (∀ x, x ∈ att → x ∈ combs)
    ∧ (NoDup combs → NoDup att)
    ∧ match (run (sample_loop rng G print_prog samples todo i combs path_costs) w).2 with
      | Ok d =>
          (∀ x, x ∈ att →
                ∃ c, dijkstra_path_length G x.1 x.2 "cost" = Ok c ∧ d !! x = Some c)
          ∧ (∀ x, x ∉ att → d !! x = path_costs !! x)
      | Raise e =>
          e = NameError "NetworkXNoPath"
          ∧ ∃ x, x ∈ att ∧ is_ok (dijkstra_path_length G x.1 x.2 "cost") = false
      end.
Proof.
  revert i combs path_costs w.
  induction todo as [|todo IH]; intros i combs path_costs w Hlen.
  { exists []. cbn. rewrite app_nil_r, Nat.add_0_r.
    split_and!; [done|done|by intros x ?%elem_of_nil|by constructor
                |by intros x ?%elem_of_nil|done]. }
  cbn [sample_loop]. rewrite run_bind, run_sample_step.
  set (k := rng (draws w) `mod` length combs).
  assert (k < length combs) as Hk by (apply Nat.mod_upper_bound; lia).
  destruct (lookup_lt_is_Some_2 combs k Hk) as [[home dest] Hx]. rewrite Hx.
  destruct (dijkstra_path_length G home dest "cost") as [c|e] eqn:Hd.
  - cbn [fst snd].
    destruct (IH (S i) (delete k combs) (<[(home, dest) := c]> path_costs)
                (World (trace w ++ progress_line print_prog i samples
                                ++ [Draw k; PathQuery home dest]) (S (draws w))))
      as (att & Hatt & Hdraws & Hsub & Hnd & Hres).
    { rewrite length_delete by eauto. lia. }
    exists ((home, dest) :: att). split_and!.
    + rewrite Hatt. cbn [trace]. rewrite !attempted_app, attempted_progress_line.
      cbn. by rewrite <- app_assoc.
    + rewrite Hdraws. cbn. lia.
    + intros x [->|Hin]%elem_of_cons.
      * apply list_elem_of_lookup. eauto.
      * eapply list_elem_of_delete_inv. by apply Hsub.
    + intros Hndc. rewrite (delete_Permutation combs k _ Hx) in Hndc.
      apply NoDup_cons in Hndc as [Hnotin Hndc]. apply NoDup_cons. split; [|by apply Hnd].
      intros Hin. by apply Hnotin, Hsub.
    + destruct (run _ _).2 as [d|e'].
      * destruct Hres as [Hin Hout]. split.
        -- intros x Hx'. destruct (decide (x ∈ att)) as [Hxa|Hxa]; [by apply Hin|].
           apply elem_of_cons in Hx' as [->|?]; [|done].
           exists c. split; [done|]. by rewrite Hout, lookup_insert_eq.
        -- intros x Hx'. apply not_elem_of_cons in Hx' as [Hne Hxa].
           by rewrite Hout, lookup_insert_ne.
      * destruct Hres as [-> (x & Hxa & Hxf)]. split; [done|].
        exists x. split; [by right|done].
  - exists [(home, dest)]. cbn [fst snd trace draws]. split; [|split; [|split; [|split]]].
    + rewrite !attempted_app, attempted_progress_line. done.
    + cbn. lia.
    + intros x ->%list_elem_of_singleton. apply list_elem_of_lookup. eauto.
    + intros _. apply NoDup_singleton.
    + split; [done|]. exists (home, dest). split; [left|]. cbn. by rewrite Hd.
Qed.

(** The same facts for the whole call, with the distinctness of the
    attempts when the pending pairs are distinct. *)
Lemma get_path_costs_outcome (rng : nat → nat) (seeds : list string)
    (adj_list : edge_table) (print_prog : bool) (p : Q) (w : world) :
  (0 < p)%Q → (p <= 1)%Q →
  ∃ att : list (string * string),
    attempted (trace (run (get_path_costs rng seeds adj_list print_prog p) w).1)
    = attempted (trace w) ++ att
    ∧ draws (run (get_path_costs rng seeds adj_list print_prog p) w).1
      = draws w + length att
    ∧ (∀ x, x ∈ att → x ∈ combinations seeds)
    ∧ (NoDup seeds → NoDup att)
    ∧ match (run (get_path_costs rng seeds adj_list print_prog p) w).2 with
      | Ok None => False
      | Ok (Some d) =>
          (∀ x, x ∈ att →
                ∃ c, dijkstra_path_length (graph_of adj_list) x.1 x.2 "cost" = Ok c
                     ∧ d !! x = Some c)
          ∧ (∀ x, x ∉ att → d !! x = None)
          ∧ length att = sample_count (length (combinations seeds)) p
      | Raise e =>
          e = NameError "NetworkXNoPath"
          ∧ ∃ x, x ∈ att
                 ∧ is_ok (dijkstra_path_length (graph_of adj_list) x.1 x.2 "cost") = false
      end.
Proof.
  intros Hp Hp1. rewrite run_get_path_costs_valid by done. cbn zeta.
  set (samples := range_len _).
  pose proof (samples_le_length (length (combinations seeds)) p Hp Hp1) as Hle.
  fold samples in Hle.
  destruct (sample_loop_outcome rng (graph_of adj_list) print_prog samples samples 0
              (combinations seeds) ∅ (World (trace w ++ [BuildGraph]) (draws w)) Hle)
    as (att & Hatt & Hdraws & Hsub & Hnd & Hres).
  exists att. cbn [fst snd]. split_and!; [|done|done| |].
  - rewrite Hatt. cbn [trace]. rewrite attempted_app. cbn. by rewrite app_nil_r.
  - intros Hs. by apply Hnd, combinations_NoDup.
  - destruct (run _ _).2 as [d|e] eqn:Hr; [|done].
    destruct Hres as [Hin Hout]. split_and!; [done|by intros x ?; rewrite Hout|].
    fold samples.
    assert (todo_done : ∀ todo i combs pc w0 d0,
              (todo ≤ length combs)%nat →
              (run (sample_loop rng (graph_of adj_list) print_prog samples todo i combs pc) w0).2
              = Ok d0 →
              draws (run (sample_loop rng (graph_of adj_list) print_prog samples todo i combs pc) w0).1
              = draws w0 + todo).
    { clear. induction todo as [|todo IH]; intros i combs pc w0 d0 Hl Hok.
      - cbn. lia.
      - revert Hok. cbn [sample_loop]. rewrite run_bind, run_sample_step.
        set (k := rng (draws w0) `mod` length combs).
        assert (k < length combs) as Hk by (apply Nat.mod_upper_bound; lia).
        destruct (lookup_lt_is_Some_2 combs k Hk) as [[home dest] Hx]. rewrite Hx.
        destruct (dijkstra_path_length _ home dest "cost") as [c|e]; [|done].
        cbn [fst snd]. intros Hok. erewrite IH; [cbn; lia| |done].
        rewrite length_delete by eauto. lia. }
    pose proof (todo_done samples 0 (combinations seeds) ∅ _ d Hle Hr) as Hdone.
    rewrite Hdraws in Hdone. lia.
Qed.

(** ** What [get_path_costs] returns and raises *)

(** X5: with a proportion in (0, 1] the call never returns [None], and the
    only exception it ends in is the [NameError] of the handler; that
    happens only after a query for a pair of seeds failed. *)
Theorem get_path_costs_exceptions (rng : nat → nat) (seeds : list string)
    (adj_list : edge_table) (print_prog : bool) (p : Q) (w : world) :
  (0 < p)%Q → (p <= 1)%Q →
  (run (get_path_costs rng seeds adj_list print_prog p) w).2 ≠ Ok None
  ∧ ∀ e, (run (get_path_costs rng seeds adj_list print_prog p) w).2 = Raise e →
         e = NameError "NetworkXNoPath"
         ∧ ∃ a b, (a, b) ∈ combinations seeds
                  ∧ is_ok (dijkstra_path_length (graph_of adj_list) a b "cost") = false.
Proof.
  intros Hp Hp1.
  destruct (get_path_costs_outcome rng seeds adj_list print_prog p w Hp Hp1)
    as (att & _ & _ & Hsub & _ & Hres).
  destruct (run _ _).2 as [[d|]|e0]; [|done|].
  - split; [done|]. intros e [=].
  - split; [done|]. intros e [= <-]. destruct Hres as [-> ([a b] & Hin & Hf)].
    split; [done|]. exists a, b. split; [by apply Hsub|done].
Qed.

Lemma get_path_costs_exceptions_witness :
  (run (get_path_costs (λ _, 0) ["A"; "B"; "C"] split_net false 1) world0).2 ≠ Ok None
  ∧ ∀ e, (run (get_path_costs (λ _, 0) ["A"; "B"; "C"] split_net false 1) world0).2 = Raise e →
         e = NameError "NetworkXNoPath"
         ∧ ∃ a b, (a, b) ∈ combinations ["A"; "B"; "C"]
                  ∧ is_ok (dijkstra_path_length (graph_of split_net) a b "cost") = false.
Proof.
  apply (get_path_costs_exceptions (λ _, 0) ["A"; "B"; "C"] split_net false 1 world0);
    [reflexivity|discriminate].
Defined.

(** X6: every entry of a returned mapping is keyed by an attempted pair of
    seeds and holds the shortest-path length of that pair under the weight
    "cost"; every attempted pair has an entry; the attempts are as many as
    the draws, int(C * p) of them for C pending pairs, the product being the
    binary64 product. *)
Theorem get_path_costs_entries (rng : nat → nat) (seeds : list string)
    (adj_list : edge_table) (print_prog : bool) (p : Q)
    (d : gmap (string * string) Q) :
  (0 < p)%Q → (p <= 1)%Q →
  (run (get_path_costs rng seeds adj_list print_prog p) world0).2 = Ok (Some d) →
  let final := (run (get_path_costs rng seeds adj_list print_prog p) world0).1 in
  (∀ a b c, d !! (a, b) = Some c →
            (a, b) ∈ attempted (trace final)
            ∧ (a, b) ∈ combinations seeds
            ∧ dijkstra_path_length (graph_of adj_list) a b "cost" = Ok c)
  ∧ (∀ a b, (a, b) ∈ attempted (trace final) → is_Some (d !! (a, b)))
  ∧ length (attempted (trace final)) = draws final
  ∧ draws final = sample_count (length (combinations seeds)) p.
Proof.
  intros Hp Hp1 Hr. cbn zeta.
  destruct (get_path_costs_outcome rng seeds adj_list print_prog p world0 Hp Hp1)
    as (att & Hatt & Hdraws & Hsub & _ & Hres).
  rewrite Hr in Hres. destruct Hres as (Hin & Hout & Hlen).
  change (attempted (trace world0) ++ att) with att in Hatt.
  change (draws world0 + length att) with (length att) in Hdraws.
  rewrite Hatt, Hdraws. split_and!; [| |done|done].
  - intros a b c Hc. destruct (decide ((a, b) ∈ att)) as [Hab|Hab].
    + destruct (Hin _ Hab) as (c' & Hd & Hc'). rewrite Hc in Hc'.
      injection Hc' as ->. split_and!; [done|by apply Hsub|done].
    + rewrite Hout in Hc by done. done.
  - intros a b Hab. destruct (Hin _ Hab) as (c & _ & ->). eauto.
Qed.

Lemma get_path_costs_entries_witness :
  let final := (run (get_path_costs (λ _, 0) ["A"; "B"] (EdgeTable "s" "t" "cost" chain_rows)
                       false 1) world0).1 in
  (∀ a b c, ({[ ("A", "B") := 1%Q ]} : gmap (string * string) Q) !! (a, b) = Some c →
            (a, b) ∈ attempted (trace final)
            ∧ (a, b) ∈ combinations ["A"; "B"]
            ∧ dijkstra_path_length (graph_of (EdgeTable "s" "t" "cost" chain_rows)) a b "cost"
              = Ok c)
  ∧ (∀ a b, (a, b) ∈ attempted (trace final)
            → is_Some (({[ ("A", "B") := 1%Q ]} : gmap (string * string) Q) !! (a, b)))
  ∧ length (attempted (trace final)) = draws final
  ∧ draws final = sample_count (length (combinations ["A"; "B"])) 1.
Proof.
  apply (get_path_costs_entries (λ _, 0) ["A"; "B"] (EdgeTable "s" "t" "cost" chain_rows)
           false 1 {[ ("A", "B") := 1%Q ]});
    [reflexivity|discriminate|vm_compute; reflexivity].
Defined.

(** X7: with distinct seeds, a returned mapping has exactly
    int(C(n,2) * p) keys, the product being the binary64 product. *)
Theorem get_path_costs_size (rng : nat → nat) (seeds : list string)
    (adj_list : edge_table) (print_prog : bool) (p : Q)
    (d : gmap (string * string) Q) :
  NoDup seeds → (0 < p)%Q → (p <= 1)%Q →
  (run (get_path_costs rng seeds adj_list print_prog p) world0).2 = Ok (Some d) →
  size d = sample_count (length seeds * (length seeds - 1) / 2) p.
Proof.
  intros Hnd Hp Hp1 Hr.
  destruct (get_path_costs_outcome rng seeds adj_list print_prog p world0 Hp Hp1)
    as (att & _ & _ & _ & Hnd_att & Hres).
  rewrite Hr in Hres. destruct Hres as (Hin & Hout & Hlen).
  rewrite <- combinations_length, <- Hlen, <- size_dom.
  assert (dom d = list_to_set att) as ->.
  { apply set_eq. intros x. rewrite elem_of_dom, elem_of_list_to_set. split.
    - intros [c Hc]. destruct (decide (x ∈ att)) as [|Hx]; [done|].
      by rewrite Hout in Hc.
    - intros Hx. destruct (Hin x Hx) as (c & _ & ->). eauto. }
  apply size_list_to_set. by apply Hnd_att.
Qed.

Lemma get_path_costs_size_witness :
  size ({[ ("A", "B") := 1%Q ]} : gmap (string * string) Q)
  = sample_count (2 * (2 - 1) / 2) 1.
Proof.
  apply (get_path_costs_size (λ _, 0) ["A"; "B"] (EdgeTable "s" "t" "cost" chain_rows)
           false 1 {[ ("A", "B") := 1%Q ]});
    [compute_done|reflexivity|discriminate|vm_compute; reflexivity].
Defined.

(** ** All pairs, and none *)

(** With distinct seeds and proportion 1, a returned mapping holds, at every
    pair of seeds, the outcome of the path query, and nothing elsewhere. *)
Lemma returned_lookup (rng : nat → nat) (seeds : list string)
    (adj_list : edge_table) (print_prog : bool) (d : gmap (string * string) Q) :
  NoDup seeds →
  (run (get_path_costs rng seeds adj_list print_prog 1) world0).2 = Ok (Some d) →
  ∀ x, d !! x
       = if decide (x ∈ combinations seeds)
         then match dijkstra_path_length (graph_of adj_list) x.1 x.2 "cost" with
              | Ok c => Some c
              | Raise _ => None
              end
         else None.
Proof.
  intros Hnd Hr.
  destruct (get_path_costs_outcome rng seeds adj_list print_prog 1 world0)
    as (att & _ & _ & Hsub & Hnd_att & Hres); [done..|].
  rewrite Hr in Hres. destruct Hres as (Hin & Hout & Hlen).
  rewrite sample_count_all in Hlen.
  assert (att ≡ₚ combinations seeds) as Hperm.
  { apply submseteq_length_Permutation; [|lia]. apply NoDup_submseteq; auto. }
  intros x. destruct (decide (x ∈ combinations seeds)) as [Hx|Hx].
  - rewrite <- Hperm in Hx. destruct (Hin x Hx) as (c & -> & ->). done.
  - apply Hout. by rewrite Hperm.
Qed.

(** X8: with distinct seeds and proportion 1, a returned mapping is the
    full table: every pair of seeds (the first before the second in the seed
    list) carries its shortest-path length, and there is no other key.  The
    mapping does not depend on the random draws nor on [print_prog]. *)
Theorem get_path_costs_full_table (rng rng' : nat → nat) (seeds : list string)
    (adj_list : edge_table) (print_prog print_prog' : bool)
    (d d' : gmap (string * string) Q) :
  NoDup seeds →
  (run (get_path_costs rng seeds adj_list print_prog 1) world0).2 = Ok (Some d) →
  (run (get_path_costs rng' seeds adj_list print_prog' 1) world0).2 = Ok (Some d') →
  (∀ a b, (a, b) ∈ combinations seeds →
          ∃ c, dijkstra_path_length (graph_of adj_list) a b "cost" = Ok c
               ∧ d !! (a, b) = Some c)
  ∧ (∀ a b, (a, b) ∉ combinations seeds → d !! (a, b) = None)
  ∧ d = d'.
Proof.
  intros Hnd Hr Hr'.
  pose proof (returned_lookup rng seeds adj_list print_prog d Hnd Hr) as Hd.
  pose proof (returned_lookup rng' seeds adj_list print_prog' d' Hnd Hr') as Hd'.
  split_and!.
  - intros a b Hin.
    destruct (get_path_costs_outcome rng seeds adj_list print_prog 1 world0)
      as (att & _ & _ & Hsub & _ & Hres); [done..|].
    rewrite Hr in Hres. destruct Hres as (Hatt & Hout & _).
    specialize (Hd (a, b)). rewrite decide_True in Hd by done. cbn in Hd.
    destruct (dijkstra_path_length _ a b "cost") as [c|e] eqn:Hc; [by exists c|].
    exfalso. destruct (decide ((a, b) ∈ att)) as [Hx|Hx].
    + destruct (Hatt _ Hx) as (c & Hc' & _). cbn in Hc'. congruence.
    + destruct (get_path_costs_outcome rng seeds adj_list print_prog 1 world0)
        as (att' & _ & _ & Hsub' & Hnd' & Hres'); [done..|].
      rewrite Hr in Hres'. destruct Hres' as (Hatt' & _ & Hlen').
      rewrite sample_count_all in Hlen'.
      assert (att' ≡ₚ combinations seeds) as Hperm.
      { apply submseteq_length_Permutation; [|lia]. apply NoDup_submseteq; auto. }
      rewrite <- Hperm in Hin. destruct (Hatt' _ Hin) as (c & Hc' & _). cbn in Hc'.
      congruence.
  - intros a b Hnin. rewrite Hd. by rewrite decide_False.
  - apply map_eq. intros x. by rewrite Hd, Hd'.
Qed.

Lemma get_path_costs_full_table_witness :
  (∀ a b, (a, b) ∈ combinations ["A"; "B"] →
          ∃ c, dijkstra_path_length (graph_of (EdgeTable "s" "t" "cost" chain_rows)) a b "cost"
               = Ok c
               ∧ ({[ ("A", "B") := 1%Q ]} : gmap (string * string) Q) !! (a, b) = Some c)
  ∧ (∀ a b, (a, b) ∉ combinations ["A"; "B"]
            → ({[ ("A", "B") := 1%Q ]} : gmap (string * string) Q) !! (a, b) = None)
  ∧ ({[ ("A", "B") := 1%Q ]} : gmap (string * string) Q) = {[ ("A", "B") := 1%Q ]}.
Proof.
  apply (get_path_costs_full_table (λ _, 0) (λ _, 5) ["A"; "B"]
           (EdgeTable "s" "t" "cost" chain_rows) false true);
    [compute_done|vm_compute; reflexivity|vm_compute; reflexivity].
Defined.

(** X9: with distinct seeds and proportion 1, one pair of seeds whose path
    query fails makes the call end in the [NameError] of the handler, for
    every outcome of the random draws. *)
Theorem get_path_costs_unreachable_pair (rng : nat → nat) (seeds : list string)
    (adj_list : edge_table) (print_prog : bool) (a b : string) :
  NoDup seeds → (a, b) ∈ combinations seeds →
  is_ok (dijkstra_path_length (graph_of adj_list) a b "cost") = false →
  (run (get_path_costs rng seeds adj_list print_prog 1) world0).2
  = Raise (NameError "NetworkXNoPath").
Proof.
  intros Hnd Hin Hf.
  destruct (get_path_costs_outcome rng seeds adj_list print_prog 1 world0)
    as (att & _ & _ & Hsub & Hnd_att & Hres); [done..|].
  destruct (run _ _).2 as [[d|]|e] eqn:Hr; [|done|by destruct Hres as [-> _]].
  exfalso. destruct Hres as (Hatt & _ & Hlen). rewrite sample_count_all in Hlen.
  assert (att ≡ₚ combinations seeds) as Hperm.
  { apply submseteq_length_Permutation; [|lia]. apply NoDup_submseteq; auto. }
  rewrite <- Hperm in Hin. destruct (Hatt _ Hin) as (c & Hc & _). cbn in Hc.
  by rewrite Hc in Hf.
Qed.

Lemma get_path_costs_unreachable_pair_witness :
  (run (get_path_costs (λ k, 3 * k + 1) ["A"; "B"; "C"] split_net true 1) world0).2
  = Raise (NameError "NetworkXNoPath").
Proof.
  apply (get_path_costs_unreachable_pair (λ k, 3 * k + 1) ["A"; "B"; "C"] split_net true
           "B" "C");
    [compute_done|compute_done|vm_compute; reflexivity].
Defined.

(** X10: when every pair of seeds has a path, or more generally every path
    query for a pair of seeds succeeds, the call returns a mapping, for every
    proportion in (0, 1] and every outcome of the draws. *)
Theorem get_path_costs_returns (rng : nat → nat) (seeds : list string)
    (adj_list : edge_table) (print_prog : bool) (p : Q) (w : world) :
  (0 < p)%Q → (p <= 1)%Q →
  (∀ a b, (a, b) ∈ combinations seeds →
          is_ok (dijkstra_path_length (graph_of adj_list) a b "cost") = true) →
  ∃ d, (run (get_path_costs rng seeds adj_list print_prog p) w).2 = Ok (Some d).
Proof.
  intros Hp Hp1 Hall.
  destruct (get_path_costs_outcome rng seeds adj_list print_prog p w Hp Hp1)
    as (att & _ & _ & Hsub & _ & Hres).
  destruct (run _ _).2 as [[d|]|e] eqn:Hr; [by exists d|done|].
  destruct Hres as (_ & [a b] & Hin & Hf). cbn in Hf.
  rewrite (Hall a b) in Hf; [done|by apply Hsub].
Qed.

Lemma get_path_costs_returns_witness :
  ∃ d, (run (get_path_costs (λ k, k) ["A"; "B"; "C"]
               (EdgeTable "s" "t" "cost" chain_rows) false (2 # 3)) world0).2
       = Ok (Some d).
Proof.
  apply (get_path_costs_returns (λ k, k) ["A"; "B"; "C"]
           (EdgeTable "s" "t" "cost" chain_rows) false (2 # 3) world0);
    [reflexivity|discriminate|].
  intros a b Hin. cbn in Hin.
  repeat (apply elem_of_cons in Hin as [Heq|Hin];
          [injection Heq as -> ->; vm_compute; reflexivity|]).
  by apply elem_of_nil in Hin.
Defined.

(** X11: when the float product C(n,2) * p is below 1, as it is for fewer
    than two seeds, the call builds the graph, draws nothing, queries nothing
    and returns the empty mapping. *)
Theorem get_path_costs_nothing_to_sample (rng : nat → nat) (seeds : list string)
    (adj_list : edge_table) (print_prog : bool) (p : Q) (w : world) :
  (0 < p)%Q → (p <= 1)%Q →
  (len_times_float (length seeds * (length seeds - 1) / 2) p < 1)%Q →
  run (get_path_costs rng seeds adj_list print_prog p) w
  = (World (trace w ++ [BuildGraph]) (draws w), Ok (Some ∅)).
Proof.
  intros Hp Hp1 Hlt. rewrite run_get_path_costs_valid by done. cbn zeta.
  rewrite combinations_length.
  set (y := len_times_float _ p) in *.
  assert (0 <= y)%Q as H0.
  { apply (len_times_float_ge _ p 0); [by apply Qlt_le_weak|done|].
    by apply len_times_nonneg, Qlt_le_weak. }
  assert (range_len (py_int y) = 0) as ->; [|reflexivity].
  unfold range_len. rewrite py_int_floor by done.
  pose proof (Qfloor_le y) as Hfl.
  assert (inject_Z (Qfloor y) < inject_Z 1)%Q as H1 by (eapply Qle_lt_trans; eauto).
  rewrite <- Zlt_Qlt in H1. lia.
Qed.

Lemma get_path_costs_nothing_to_sample_witness :
  run (get_path_costs (λ _, 0) ["A"; "B"; "C"] (EdgeTable "s" "t" "cost" chain_rows) true
         (float_literal (3 # 10))) world0
  = (World [BuildGraph] 0, Ok (Some ∅)).
Proof.
  apply (get_path_costs_nothing_to_sample (λ _, 0) ["A"; "B"; "C"]
           (EdgeTable "s" "t" "cost" chain_rows) true (float_literal (3 # 10)) world0);
    [vm_compute; reflexivity|vm_compute; discriminate|vm_compute; reflexivity].
Defined.

(** ** The ID mapper: round trip and missing columns *)

Lemma elem_of_zip_swap {A B} (l : list A) (k : list B) (x : A) (y : B) :
  (x, y) ∈ zip l k → (y, x) ∈ zip k l.
Proof.
  revert k. induction l as [|x0 l IH]; intros [|y0 k]; cbn;
    try (by intros ?%elem_of_nil).
  intros [[= -> ->]|Hin]%elem_of_cons; [left|right; by apply IH].
Qed.

Lemma NoDup_zip_fst {A B} (l : list A) (k : list B) :
  NoDup l → NoDup (zip l k).*1.
Proof.
  intros Hnd. revert k. induction Hnd as [|x l Hx Hnd IH]; intros [|y k]; cbn;
    try constructor; [|by apply IH].
  intros ((x' & y') & -> & Hin)%list_elem_of_fmap. by apply elem_of_zip_l in Hin.
Qed.

Lemma mapped_value_NoDup (items : list (string * string)) (k v : string) :
  NoDup items.*1 → (k, v) ∈ items → mapped_value items k = Some v.
Proof.
  induction items as [|[k0 v0] items IH]; [by intros _ ?%elem_of_nil|].
  cbn. intros [Hk0 Hnd]%NoDup_cons [[= -> ->]|Hin]%elem_of_cons.
  - rewrite mapped_value_unmapped by done. by rewrite String.eqb_refl.
  - by rewrite IH.
Qed.

Lemma run_converters (read_csv : string → result table) (map_path : string)
    (tmp : table) (strings names ids : list string) (w : world) :
  read_csv map_path = Ok tmp →
  column tmp "STRING" = Ok strings →
  column tmp "display name" = Ok names →
  run (convert_to_gene_symbol read_csv ids map_path) w
  = (w, Ok (map (λ s, default s (mapped_value (zip strings names) s)) ids))
  ∧ run (convert_to_string_id read_csv ids map_path) w
    = (w, Ok (map (λ s, default s (mapped_value (zip names strings) s)) ids)).
Proof.
  intros Hf Hs Hn. split.
  - unfold convert_to_gene_symbol. cbn. rewrite Hf. cbn. rewrite Hs. cbn.
    rewrite Hn. cbn. rewrite run_translate. cbn. do 2 f_equal.
    apply map_ext. intros s. by rewrite py_dict_lookup.
  - unfold convert_to_string_id. cbn. rewrite Hf. cbn. rewrite Hn. cbn.
    rewrite Hs. cbn. rewrite run_translate. cbn. do 2 f_equal.
    apply map_ext. intros s. by rewrite py_dict_lookup.
Qed.

(** X12: when the file lists no STRING ID twice and no display name twice,
    translating to gene symbols and back gives the IDs again, for every ID
    that is mapped or is not itself a display name of the file. *)
Theorem id_mapper_round_trip (read_csv : string → result table) (map_path : string)
    (tmp : table) (strings names ids : list string) (w : world) :
  read_csv map_path = Ok tmp →
  column tmp "STRING" = Ok strings →
  column tmp "display name" = Ok names →
  NoDup strings → NoDup names →
  (∀ s, s ∈ ids → s ∈ (zip strings names).*1 ∨ s ∉ (zip names strings).*1) →
  ∃ syms, run (convert_to_gene_symbol read_csv ids map_path) w = (w, Ok syms)
          ∧ run (convert_to_string_id read_csv syms map_path) w = (w, Ok ids).
Proof.
  intros Hf Hs Hn Hnds Hndn Hids.
  destruct (run_converters read_csv map_path tmp strings names ids w Hf Hs Hn)
    as (Hfwd & _).
  eexists. split; [exact Hfwd|].
  destruct (run_converters read_csv map_path tmp strings names
              (map (λ s, default s (mapped_value (zip strings names) s)) ids) w Hf Hs Hn)
    as (_ & ->).
  do 2 f_equal. rewrite map_map. rewrite <- (map_id ids) at 2.
  apply map_ext_in. intros s Hin%list_elem_of_In.
  destruct (mapped_value (zip strings names) s) as [v|] eqn:Hv; cbn.
  - apply mapped_value_row, elem_of_zip_swap in Hv.
    rewrite (mapped_value_NoDup _ v s); [done| |done]. by apply NoDup_zip_fst.
  - destruct (Hids s Hin) as [Hmapped|Hfree].
    + apply list_elem_of_fmap in Hmapped as ([s' v] & -> & Hsv). cbn in Hv.
      rewrite (mapped_value_NoDup _ s' v) in Hv; [done| |done]. by apply NoDup_zip_fst.
    + by rewrite mapped_value_unmapped.
Qed.

Lemma id_mapper_round_trip_witness :
  ∃ syms,
    run (convert_to_gene_symbol
           (λ _, Ok [("STRING", ["9606.ENSP1"; "9606.ENSP2"]);
                     ("display name", ["TP53"; "MYC"])])
           ["9606.ENSP2"; "UNKNOWN_ID"; "9606.ENSP1"] "map.tsv") world0
    = (world0, Ok syms)
    ∧ run (convert_to_string_id
             (λ _, Ok [("STRING", ["9606.ENSP1"; "9606.ENSP2"]);
                       ("display name", ["TP53"; "MYC"])])
             syms "map.tsv") world0
      = (world0, Ok ["9606.ENSP2"; "UNKNOWN_ID"; "9606.ENSP1"]).
Proof.
  apply (id_mapper_round_trip
           (λ _, Ok [("STRING", ["9606.ENSP1"; "9606.ENSP2"]);
                     ("display name", ["TP53"; "MYC"])])
           "map.tsv"
           [("STRING", ["9606.ENSP1"; "9606.ENSP2"]); ("display name", ["TP53"; "MYC"])]
           ["9606.ENSP1"; "9606.ENSP2"] ["TP53"; "MYC"]);
    [reflexivity|reflexivity|reflexivity|compute_done|compute_done|].
  intros s Hin. cbn in Hin |- *.
  repeat (apply elem_of_cons in Hin as [->|Hin]; [compute_done|]).
  by apply elem_of_nil in Hin.
Defined.

Lemma column_error (tmp : table) (label : string) (e : exn) :
  column tmp label = Raise e → e = KeyError label.
Proof. unfold column. destruct (list_find _ tmp) as [[i c]|]; congruence. Qed.

(** X13: the pass-through covers missing IDs only.  A file without the
    column "STRING", or without the column "display name", makes both
    converters end in [KeyError] for that label, whatever the IDs. *)
Theorem id_mapper_missing_column (read_csv : string → result table) (map_path : string)
    (tmp : table) (label : string) (ids : list string) (w : world) :
  read_csv map_path = Ok tmp →
  label = "STRING" ∨ label = "display name" →
  label ∉ tmp.*1 →
  (∃ l, (run (convert_to_gene_symbol read_csv ids map_path) w).2 = Raise (KeyError l))
  ∧ (∃ l, (run (convert_to_string_id read_csv ids map_path) w).2 = Raise (KeyError l)).
Proof.
  intros Hf Hl Hmiss.
  assert (column tmp label = Raise (KeyError label)) as Hcol.
  { unfold column. destruct (list_find _ tmp) as [[i c]|] eqn:Hfind; [|done].
    apply list_find_Some in Hfind as (Hi & <- & _).
    exfalso. apply Hmiss. apply list_elem_of_fmap. exists c. split; [done|].
    apply list_elem_of_lookup. eauto. }
  unfold convert_to_gene_symbol, convert_to_string_id. cbn. rewrite Hf. cbn.
  destruct Hl as [-> | ->]; rewrite Hcol; cbn.
  - split; [by eexists|].
    destruct (column tmp "display name") as [names|e] eqn:Hc; cbn; [by eexists|].
    apply column_error in Hc as ->. by eexists.
  - split; [|by eexists].
    destruct (column tmp "STRING") as [strings|e] eqn:Hc; cbn; [by eexists|].
    apply column_error in Hc as ->. by eexists.
Qed.

Lemma id_mapper_missing_column_witness :
  (∃ l, (run (convert_to_gene_symbol (λ _, Ok [("STRING", ["9606.ENSP1"]); ("name", ["TP53"])])
                ["9606.ENSP1"] "map.tsv") world0).2 = Raise (KeyError l))
  ∧ (∃ l, (run (convert_to_string_id (λ _, Ok [("STRING", ["9606.ENSP1"]); ("name", ["TP53"])])
                  ["9606.ENSP1"] "map.tsv") world0).2 = Raise (KeyError l)).
Proof.
  apply (id_mapper_missing_column (λ _, Ok [("STRING", ["9606.ENSP1"]); ("name", ["TP53"])])
           "map.tsv" [("STRING", ["9606.ENSP1"]); ("name", ["TP53"])] "display name");
    [reflexivity|by right|compute_done].
Defined.

(** ** [get_graph_edit_distance] *)

Lemma elem_of_product {A B} (l1 : list A) (l2 : list B) (x : A) (y : B) :
  (x, y) ∈ product l1 l2 ↔ x ∈ l1 ∧ y ∈ l2.
Proof.
  unfold product. rewrite list_elem_of_bind. split.
  - intros (x' & Hin & Hx). apply list_elem_of_bind in Hin as (y' & Hin & Hy).
    apply list_elem_of_singleton in Hin as [= -> ->]. done.
  - intros [Hx Hy]. exists x. split; [|done].
    apply list_elem_of_bind. exists y. split; [|done]. by apply list_elem_of_singleton.
Qed.

Lemma elem_of_dict_keys {V} (d : gmap string V) (k : string) :
  k ∈ (map_to_list d).*1 ↔ is_Some (d !! k).
Proof.
  rewrite list_elem_of_fmap. split.
  - intros ([k' v] & -> & Hin). apply elem_of_map_to_list in Hin. eauto.
  - intros [v Hv]. exists (k, v). split; [done|]. by apply elem_of_map_to_list.
Qed.

Lemma edit_distance_loop_spec (ged : nx_graph → nx_graph → result Q)
    (graph_dict : gmap string nx_graph) (combs : list (string * string))
    (acc : gmap (string * string) Q) :
  (∀ k, k ∈ combs → is_Some (graph_dict !! k.1) ∧ is_Some (graph_dict !! k.2)) →
  match edit_distance_loop ged graph_dict combs acc with
  | Ok d =>
      ∀ k x, d !! k = Some x ↔
             (k ∈ combs ∧ (∃ g1 g2, graph_dict !! k.1 = Some g1
                                    ∧ graph_dict !! k.2 = Some g2 ∧ ged g1 g2 = Ok x))
             ∨ ((k ∉ combs) ∧ acc !! k = Some x)
  | Raise e =>
      ∃ k g1 g2, k ∈ combs ∧ graph_dict !! k.1 = Some g1
                 ∧ graph_dict !! k.2 = Some g2 ∧ ged g1 g2 = Raise e
  end.
Proof.
  revert acc. induction combs as [|[k1 k2] rest IH]; intros acc Hkeys.
  { cbn. intros k x. split; [intros Hk; right; split; [apply not_elem_of_nil|done]|].
    intros [[Hin _]|[_ Hk]]; [by apply elem_of_nil in Hin|done]. }
  cbn [edit_distance_loop].
  destruct (Hkeys (k1, k2)) as [[g1 Hg1] [g2 Hg2]]; [left|]. cbn in Hg1, Hg2.
  unfold getitem. rewrite Hg1, Hg2. cbn.
  destruct (ged g1 g2) as [x0|e] eqn:Hged; cbn.
  - specialize (IH (<[(k1, k2) := x0]> acc)).
    destruct (edit_distance_loop ged graph_dict rest _) as [d|e].
    + intros k x. rewrite IH by (intros; apply Hkeys; by right).
      rewrite !elem_of_cons.
      destruct (decide (k = (k1, k2))) as [->|Hne].
      * rewrite lookup_insert_eq.
        assert ((∃ g1' g2', graph_dict !! (k1, k2).1 = Some g1'
                            ∧ graph_dict !! (k1, k2).2 = Some g2' ∧ ged g1' g2' = Ok x)
                ↔ x0 = x) as ->.
        { cbn. rewrite Hg1, Hg2. split.
          - intros (g1' & g2' & [= <-] & [= <-] & Hx). congruence.
          - intros <-. eauto. }
        destruct (decide ((k1, k2) ∈ rest)); naive_solver.
      * rewrite lookup_insert_ne by done. naive_solver.
    + destruct IH as (k & g1' & g2' & Hin & ?); [intros; apply Hkeys; by right|].
      exists k, g1', g2'. split; [by right|done].
  - exists (k1, k2), g1, g2. split; [left|done].
Qed.

Lemma edit_distance_loop_all_ok (ged : nx_graph → nx_graph → result Q)
    (graph_dict : gmap string nx_graph) (combs : list (string * string))
    (acc d : gmap (string * string) Q) :
  edit_distance_loop ged graph_dict combs acc = Ok d →
  ∀ k, k ∈ combs →
       ∃ g1 g2 x, graph_dict !! k.1 = Some g1 ∧ graph_dict !! k.2 = Some g2
                  ∧ ged g1 g2 = Ok x.
Proof.
  revert acc. induction combs as [|[k1 k2] rest IH]; intros acc Hd k Hin;
    [by apply elem_of_nil in Hin|].
  revert Hd. cbn [edit_distance_loop]. unfold getitem.
  destruct (graph_dict !! k1) as [g1|] eqn:Hg1; [|done].
  destruct (graph_dict !! k2) as [g2|] eqn:Hg2; [|done]. cbn.
  destruct (ged g1 g2) as [x0|e] eqn:Hged; [|done]. cbn. intros Hd.
  apply elem_of_cons in Hin as [->|Hin]; [by exists g1, g2, x0|by eapply IH].
Qed.

(** X14: the call returns exactly when the edit distance of every ordered
    pair of graphs of the dictionary, each graph paired with itself
    included, is computed without exception.  The mapping returned has an
    entry for every ordered pair of keys, holding the distance of the two
    graphs, and no other entry.  Otherwise the exception of a failing pair
    is raised and no partial table is returned.  Nothing is printed or
    drawn. *)
Theorem get_graph_edit_distance_table (ged : nx_graph → nx_graph → result Q)
    (graph_dict : gmap string nx_graph) (w : world) :
  (run (get_graph_edit_distance ged graph_dict) w).1 = w
  ∧ (is_ok (run (get_graph_edit_distance ged graph_dict) w).2 = true
     ↔ ∀ k1 k2 g1 g2, graph_dict !! k1 = Some g1 → graph_dict !! k2 = Some g2
                      → is_ok (ged g1 g2) = true)
  ∧ match (run (get_graph_edit_distance ged graph_dict) w).2 with
    | Ok d =>
        (∀ k1 k2 g1 g2, graph_dict !! k1 = Some g1 → graph_dict !! k2 = Some g2
                        → ∃ x, ged g1 g2 = Ok x ∧ d !! (k1, k2) = Some x)
        ∧ (∀ k1 k2, is_Some (d !! (k1, k2))
                    → is_Some (graph_dict !! k1) ∧ is_Some (graph_dict !! k2))
    | Raise e =>
        ∃ k1 k2 g1 g2, graph_dict !! k1 = Some g1
                       ∧ graph_dict !! k2 = Some g2 ∧ ged g1 g2 = Raise e
    end.
Proof.
  split; [done|]. unfold get_graph_edit_distance. rewrite run_lift. cbn [snd].
  set (keys := (map_to_list graph_dict).*1).
  assert (Hkeys : ∀ k, k ∈ product keys keys →
                       is_Some (graph_dict !! k.1) ∧ is_Some (graph_dict !! k.2)).
  { intros [a b] [Ha Hb]%elem_of_product. unfold keys in Ha, Hb.
    by rewrite !elem_of_dict_keys in Ha, Hb. }
  assert (Hin : ∀ k1 k2 g1 g2, graph_dict !! k1 = Some g1 → graph_dict !! k2 = Some g2
                               → (k1, k2) ∈ product keys keys).
  { intros k1 k2 g1 g2 H1 H2. apply elem_of_product. unfold keys.
    rewrite !elem_of_dict_keys. eauto. }
  pose proof (edit_distance_loop_spec ged graph_dict (product keys keys) ∅ Hkeys) as Hspec.
  pose proof (edit_distance_loop_all_ok ged graph_dict (product keys keys) ∅) as Hall.
  destruct (edit_distance_loop ged graph_dict (product keys keys) ∅) as [d|e].
  - specialize (Hall d eq_refl).
    assert (Hfull : ∀ k1 k2 g1 g2, graph_dict !! k1 = Some g1 → graph_dict !! k2 = Some g2
                                   → ∃ x, ged g1 g2 = Ok x ∧ d !! (k1, k2) = Some x).
    { intros k1 k2 g1 g2 H1 H2.
      destruct (Hall (k1, k2) (Hin _ _ _ _ H1 H2)) as (g1' & g2' & x & H1' & H2' & Hx).
      cbn in H1', H2'. assert (g1' = g1) as -> by congruence.
      assert (g2' = g2) as -> by congruence.
      exists x. split; [done|]. apply Hspec. left. split; [by eapply Hin|].
      by exists g1, g2. }
    split_and!.
    + split; [|done]. intros _ k1 k2 g1 g2 H1 H2.
      destruct (Hfull k1 k2 g1 g2 H1 H2) as (x & -> & _). done.
    + done.
    + intros k1 k2 [x Hx]. apply Hspec in Hx as [[Hk _]|[_ Hx]]; [|done].
      by apply (Hkeys (k1, k2)).
  - destruct Hspec as ([k1 k2] & g1 & g2 & _ & H1 & H2 & Hraise). cbn in H1, H2.
    split.
    + split; [done|]. intros Hok. specialize (Hok k1 k2 g1 g2 H1 H2).
      by rewrite Hraise in Hok.
    + by exists k1, k2, g1, g2.
Qed.

(** ** [get_network_details]: the assembled table *)

Lemma bound_in_spec (names : list string) (name : string) :
  bound_in names name = true ↔ name ∈ names.
Proof.
  unfold bound_in. rewrite existsb_exists, list_elem_of_In. split.
  - intros (x & Hin & ->%String.eqb_eq). done.
  - intros Hin. exists name. split; [done|apply String.eqb_refl].
Qed.

Lemma column_values_length_le (G : nx_graph) (a : string) :
  (length (column_values G a) ≤ length (g_nodes G))%nat.
Proof.
  unfold get_node_attributes. rewrite length_fmap.
  induction (g_nodes G) as [|n l IH]; [done|]. cbn.
  destruct (node_data G n !! a); cbn; lia.
Qed.

Lemma column_values_complete (G : nx_graph) (a : string) :
  (∀ n, n ∈ g_nodes G → is_Some (node_data G n !! a)) →
  Forall2 (λ n v, node_data G n !! a = Some v) (g_nodes G) (column_values G a).
Proof.
  unfold get_node_attributes.
  induction (g_nodes G) as [|n l IH]; intros Hall; [constructor|]. cbn.
  destruct (Hall n) as [v Hv]; [left|]. rewrite Hv. cbn. constructor; [done|].
  apply IH. intros n' Hn'. apply Hall. by right.
Qed.

Lemma column_values_short (G : nx_graph) (a n : string) :
  n ∈ g_nodes G → node_data G n !! a = None →
  length (column_values G a) ≠ length (g_nodes G).
Proof.
  unfold get_node_attributes. rewrite length_fmap. intros Hin Hn.
  assert (∀ l : list string,
            (length (omap (λ n0, v ← node_data G n0 !! a; Some (n0, v)) l) ≤ length l)%nat)
    as Hle.
  { induction l as [|n0 l IH]; [done|]. cbn. destruct (node_data G n0 !! a); cbn; lia. }
  induction (g_nodes G) as [|n0 l IH]; [by apply elem_of_nil in Hin|].
  cbn. apply elem_of_cons in Hin as [<-|Hin].
  - rewrite Hn. cbn. specialize (Hle l). lia.
  - destruct (node_data G n0 !! a); cbn; [specialize (IH Hin)|specialize (Hle l)]; lia.
Qed.

Lemma add_column_raise (G : nx_graph) (atts : list string) (e : exn) :
  foldl (add_column G) (Raise e) atts = Raise e.
Proof. induction atts as [|a atts IH]; [done|]. cbn. apply IH. Qed.

Lemma set_column_index (df df' : data_frame) (a : string) (vals : list value) :
  set_column df a vals = Ok df' → df_index df' = df_index df.
Proof.
  unfold set_column. destruct (negb _); [done|].
  destruct (bound_in _ _); by intros [= <-].
Qed.

Lemma table_of_add (G : nx_graph) (seen : list string) (df : data_frame) (a : string) :
  table_of G seen df →
  length (column_values G a) = length (g_nodes G) →
  ∃ df', set_column df a (column_values G a) = Ok df' ∧ table_of G (seen ++ [a]) df'.
Proof.
  intros (Hidx & Hcols & Hnd & Hseen) Hlen. unfold set_column.
  rewrite Hidx, Hlen, Nat.eqb_refl. cbn.
  destruct (bound_in (column_labels df) a) eqn:Hb.
  - apply bound_in_spec in Hb. eexists. split; [done|].
    assert (map (λ c : string * list value,
                   if String.eqb c.1 a then (a, column_values G a) else c) (df_columns df)
            = df_columns df) as Hsame.
    { rewrite Hcols, map_map. apply map_ext. intros c. cbn.
      by destruct (String.eqb_spec c a) as [->|]. }
    unfold table_of, column_labels. cbn. rewrite Hsame.
    split_and!; [done|done|done|]. intros a'. rewrite elem_of_app, list_elem_of_singleton.
    unfold column_labels in Hseen, Hb. rewrite Hseen. naive_solver.
  - assert (a ∉ column_labels df) as Hfresh.
    { intros Hin%bound_in_spec. congruence. }
    eexists. split; [done|]. unfold table_of, column_labels in *. cbn.
    rewrite !fmap_app. cbn. split_and!; [done| | |].
    + f_equal. exact Hcols.
    + apply NoDup_app. split_and!; [done| |apply NoDup_singleton].
      intros x Hx ->%list_elem_of_singleton. done.
    + intros a'. rewrite !elem_of_app, Hseen. done.
Qed.

Lemma table_of_assemble (G : nx_graph) (atts seen : list string) (df : data_frame) :
  table_of G seen df →
  (∀ a, a ∈ atts → length (column_values G a) = length (g_nodes G)) →
  ∃ df', foldl (add_column G) (Ok df) atts = Ok df' ∧ table_of G (seen ++ atts) df'.
Proof.
  revert seen df. induction atts as [|a atts IH]; intros seen df Hdf Hall.
  { exists df. by rewrite app_nil_r. }
  destruct (table_of_add G seen df a Hdf) as (df1 & Hset & Hdf1); [apply Hall; left|].
  cbn. rewrite Hset.
  destruct (IH (seen ++ [a]) df1 Hdf1) as (df' & Hfold & Hdf'); [intros; apply Hall; by right|].
  exists df'. split; [done|]. by rewrite <- app_assoc in Hdf'.
Qed.

Lemma assemble_value_error (G : nx_graph) (atts : list string) (df : data_frame) (a : string) :
  df_index df = g_nodes G → a ∈ atts →
  length (column_values G a) ≠ length (g_nodes G) →
  foldl (add_column G) (Ok df) atts = Raise ValueError.
Proof.
  revert df. induction atts as [|a0 atts IH]; intros df Hidx Hin Hbad;
    [by apply elem_of_nil in Hin|].
  cbn. destruct (set_column df a0 (column_values G a0)) as [df1|e] eqn:Hset.
  - apply elem_of_cons in Hin as [->|Hin].
    + exfalso. revert Hset. unfold set_column. rewrite Hidx.
      apply Nat.eqb_neq in Hbad. rewrite Hbad. done.
    + apply IH; [|done|done]. apply set_column_index in Hset. congruence.
  - assert (e = ValueError) as ->.
    { revert Hset. unfold set_column. destruct (negb _); [congruence|].
      by destruct (bound_in _ _). }
    apply add_column_raise.
Qed.

Lemma table_of_empty (G : nx_graph) : table_of G [] (DataFrame (g_nodes G) []).
Proof.
  split_and!; [done|done|constructor|]. intros a. cbn. by rewrite !elem_of_nil.
Qed.

(** X15: without a [sort_by], when every node carries every requested
    attribute, the call returns the table indexed by the nodes of the graph,
    with one column per requested attribute (a repeated attribute once),
    whose values are the nodes' values of that attribute, row by row. *)
Theorem get_network_details_table
    (sort_values : data_frame → string → bool → result data_frame)
    (G : nx_graph) (atts : list string) (sort_by : option string) (w : world) :
  (∀ a n, a ∈ atts → n ∈ g_nodes G → is_Some (node_data G n !! a)) →
  truthy sort_by = false →
  ∃ df, run (get_network_details sort_values G atts sort_by) w = (w, Ok df)
        ∧ df_index df = g_nodes G
        ∧ NoDup (column_labels df)
        ∧ (∀ a, a ∈ column_labels df ↔ a ∈ atts)
        ∧ ∀ a vs, (a, vs) ∈ df_columns df →
                  Forall2 (λ n v, node_data G n !! a = Some v) (g_nodes G) vs.
Proof.
  intros Hall Hs.
  destruct (table_of_assemble G atts [] (DataFrame (g_nodes G) []) (table_of_empty G))
    as (df & Hfold & Hidx & Hcols & Hnd & Hseen).
  { intros a Ha. symmetry. eapply Forall2_length, column_values_complete. eauto. }
  exists df. unfold get_network_details. rewrite run_bind, run_lift, Hfold, Hs.
  split_and!; [done..|].
  intros a vs Hin. rewrite Hcols in Hin.
  apply list_elem_of_fmap in Hin as (a' & [= -> ->] & Ha').
  apply column_values_complete. intros n Hn. apply Hall; [|done]. by apply Hseen.
Qed.

Lemma get_network_details_table_witness :
  ∃ df, run (get_network_details (λ d _ _, Ok d) scored_graph ["score"] None) world0
        = (world0, Ok df)
        ∧ df_index df = g_nodes scored_graph
        ∧ NoDup (column_labels df)
        ∧ (∀ a, a ∈ column_labels df ↔ a ∈ ["score"])
        ∧ ∀ a vs, (a, vs) ∈ df_columns df →
                  Forall2 (λ n v, node_data scored_graph n !! a = Some v)
                          (g_nodes scored_graph) vs.
Proof.
  apply (get_network_details_table (λ d _ _, Ok d) scored_graph ["score"] None world0);
    [|reflexivity].
  intros a n ->%list_elem_of_singleton Hn. cbn in Hn.
  repeat (apply elem_of_cons in Hn as [->|Hn]; [vm_compute; eauto|]).
  by apply elem_of_nil in Hn.
Defined.

(** X16: a node that lacks one of the requested attributes makes the call
    end in [ValueError], with or without [sort_by]: the values collected for
    that attribute are fewer than the rows. *)
Theorem get_network_details_missing_attribute
    (sort_values : data_frame → string → bool → result data_frame)
    (G : nx_graph) (atts : list string) (sort_by : option string) (w : world)
    (a n : string) :
  a ∈ atts → n ∈ g_nodes G → node_data G n !! a = None →
  run (get_network_details sort_values G atts sort_by) w = (w, Raise ValueError).
Proof.
  intros Ha Hn Hmiss. unfold get_network_details. rewrite run_bind, run_lift.
  rewrite (assemble_value_error G atts _ a); [done|done|done|].
  by apply (column_values_short G a n).
Qed.

Lemma get_network_details_missing_attribute_witness :
  run (get_network_details (λ d _ _, Ok d) scored_graph ["score"; "degree"] (Some "score"))
      world0
  = (world0, Raise ValueError).
Proof.
  apply (get_network_details_missing_attribute (λ d _ _, Ok d) scored_graph
           ["score"; "degree"] (Some "score") world0 "degree" "n1");
    [compute_done|compute_done|vm_compute; reflexivity].
Defined.

(** X17: when every node carries every requested attribute, sorting by a
    name that is not among the requested attributes ends in
    [AssertionError], also when the nodes of the graph carry that attribute. *)
Theorem get_network_details_sort_by_unrequested
    (sort_values : data_frame → string → bool → result data_frame)
    (G : nx_graph) (atts : list string) (by_ : string) (w : world) :
  (∀ a n, a ∈ atts → n ∈ g_nodes G → is_Some (node_data G n !! a)) →
  by_ ≠ "" → by_ ∉ atts →
  run (get_network_details sort_values G atts (Some by_)) w = (w, Raise AssertionError).
Proof.
  intros Hall Hne Hnot.
  destruct (table_of_assemble G atts [] (DataFrame (g_nodes G) []) (table_of_empty G))
    as (df & Hfold & Hidx & Hcols & Hnd & Hseen).
  { intros a Ha. symmetry. eapply Forall2_length, column_values_complete. eauto. }
  unfold get_network_details. rewrite run_bind, run_lift, Hfold.
  assert (truthy (Some by_) = true) as ->.
  { cbn. by destruct (String.eqb_spec by_ ""). }
  rewrite run_bind. unfold py_assert. rewrite run_lift. cbv [default from_option id].
  destruct (bound_in (column_labels df) by_) eqn:Hb; [|reflexivity].
  apply bound_in_spec, Hseen in Hb. done.
Qed.

Lemma get_network_details_sort_by_unrequested_witness :
  run (get_network_details (λ d _ _, Ok d) scored_graph [] (Some "score")) world0
  = (world0, Raise AssertionError).
Proof.
  apply (get_network_details_sort_by_unrequested (λ d _ _, Ok d) scored_graph [] "score" world0);
    [|discriminate|apply not_elem_of_nil].
  intros a n Ha. by apply elem_of_nil in Ha.
Defined.

(** ** [make_solution_similarity_matrix]: the rows and the two failures *)

Lemma mapM_result_ok {A B} (f : A → result B) (l : list A) :
  (∀ x, x ∈ l → is_ok (f x) = true) →
  ∃ ys, mapM f l = Ok ys ∧ Forall2 (λ x y, f x = Ok y) l ys.
Proof.
  induction l as [|x l IH]; intros Hall.
  { exists []. split; [done|constructor]. }
  destruct (f x) as [y|e] eqn:Hx.
  - destruct IH as (ys & Hys & Hall2); [intros; apply Hall; by right|].
    exists (y :: ys). split; [|by constructor]. cbn. rewrite Hx. cbn. by rewrite Hys.
  - specialize (Hall x ltac:(left)). by rewrite Hx in Hall.
Qed.

Lemma mapM_result_raise {A B} (f : A → result B) (l : list A) (x : A) (e : exn) :
  x ∈ l → f x = Raise e →
  (∀ x' e', x' ∈ l → f x' = Raise e' → e' = e) →
  mapM f l = Raise e.
Proof.
  induction l as [|x0 l IH]; intros Hin Hx Hall; [by apply elem_of_nil in Hin|].
  cbn. destruct (f x0) as [y|e0] eqn:Hx0; cbn.
  - apply elem_of_cons in Hin as [->|Hin]; [congruence|].
    rewrite IH; [done|done|done|]. intros x' e' Hx'. apply Hall. by right.
  - f_equal. apply (Hall x0); [left|done].
Qed.

Lemma similarity_row_inv (res_dict : gmap string (list string)) (k : string * string)
    (g1 g2 : list string) :
  res_dict !! k.1 = Some g1 → res_dict !! k.2 = Some g2 →
  similarity_row res_dict k
  = match _get_similarity g1 g2 with
    | Ok m => Ok (k.1, k.2, m)
    | Raise _ => Raise ZeroDivisionError
    end.
Proof.
  intros H1 H2. unfold getitem. rewrite H1, H2. cbn.
  unfold _get_similarity, py_truediv. by destruct (size (_ ∪ _)).
Qed.

(** X18: an empty solution in the dictionary makes the call end in
    [ZeroDivisionError]: every solution is compared with itself. *)
Theorem make_solution_similarity_matrix_empty_solution
    (res_dict : gmap string (list string)) (k : string) (w : world) :
  res_dict !! k = Some [] →
  run (make_solution_similarity_matrix res_dict) w = (w, Raise ZeroDivisionError).
Proof.
  intros Hk. unfold make_solution_similarity_matrix. rewrite run_bind, run_lift.
  unfold similarity_rows.
  rewrite (mapM_result_raise _ _ (k, k) ZeroDivisionError); [done| | |].
  - apply elem_of_product. rewrite !elem_of_dict_keys. eauto.
  - by rewrite (similarity_row_inv res_dict (k, k) [] []).
  - intros [k1 k2] e' [[g1 H1]%elem_of_dict_keys [g2 H2]%elem_of_dict_keys]%elem_of_product.
    rewrite (similarity_row_inv res_dict (k1, k2) g1 g2) by done.
    destruct (_get_similarity g1 g2); congruence.
Qed.

Lemma make_solution_similarity_matrix_empty_solution_witness :
  run (make_solution_similarity_matrix {[ "s1" := ["a"]; "s2" := [] ]}) world0
  = (world0, Raise ZeroDivisionError).
Proof.
  apply (make_solution_similarity_matrix_empty_solution
           {[ "s1" := ["a"]; "s2" := [] ]} "s2" world0).
  vm_compute. reflexivity.
Defined.

(** X19: when no solution is empty, the loop computes one row per ordered
    pair of names, each holding the similarity of the two solutions, the
    pivot succeeds, and the call then ends in the [NameError] of its
    [return] statement. *)
Theorem make_solution_similarity_matrix_rows
    (res_dict : gmap string (list string)) (w : world) :
  (∀ k g, res_dict !! k = Some g → g ≠ []) →
  ∃ rows,
    similarity_rows res_dict = Ok rows
    ∧ rows.*1 = product (map_to_list res_dict).*1 (map_to_list res_dict).*1
    ∧ (∀ k1 k2 m, (k1, k2, m) ∈ rows ↔
                  ∃ g1 g2, res_dict !! k1 = Some g1 ∧ res_dict !! k2 = Some g2
                           ∧ _get_similarity g1 g2 = Ok m)
    ∧ is_ok (pivot rows) = true
    ∧ run (make_solution_similarity_matrix res_dict) w = (w, Raise (NameError "simMat")).
Proof.
  intros Hne. set (keys := (map_to_list res_dict).*1).
  assert (Hrow : ∀ k, k ∈ product keys keys →
            ∃ g1 g2 m, res_dict !! k.1 = Some g1 ∧ res_dict !! k.2 = Some g2
                       ∧ _get_similarity g1 g2 = Ok m
                       ∧ similarity_row res_dict k = Ok (k.1, k.2, m)).
  { intros [k1 k2] [[g1 H1]%elem_of_dict_keys [g2 H2]%elem_of_dict_keys]%elem_of_product.
    destruct (_get_similarity g1 g2) as [m|e] eqn:Hm.
    - exists g1, g2, m. split_and!; [done..|].
      by rewrite (similarity_row_inv res_dict (k1, k2) g1 g2), Hm.
    - exfalso. assert (e = ZeroDivisionError) as ->.
      { revert Hm. unfold _get_similarity, py_truediv. destruct (size (_ ∪ _)); congruence. }
      apply get_similarity_raises_iff in Hm as [-> _]. by apply (Hne k1 []). }
  destruct (mapM_result_ok (similarity_row res_dict) (product keys keys)) as (rows & Hrows & Hall).
  { intros k Hk. destruct (Hrow k Hk) as (? & ? & ? & _ & _ & _ & ->). done. }
  assert (rows.*1 = product keys keys) as Hfst.
  { clear Hrows. induction Hall as [|k y l ys Hk Hall IH]; [done|]. cbn. f_equal.
    - destruct (Hrow k) as (? & ? & ? & _ & _ & _ & Hk'); [left|].
      rewrite Hk in Hk'. injection Hk' as ->. by destruct k.
    - apply IH. intros k' Hk'. apply Hrow. by right. }
  assert (NoDup (product keys keys)) as Hnd.
  { unfold product. apply NoDup_bind.
    - intros x1 x2 [a b] _ _ (y1 & [= -> ->]%list_elem_of_singleton & _)%list_elem_of_bind
        (y2 & [= -> ->]%list_elem_of_singleton & _)%list_elem_of_bind. done.
    - intros x _. apply NoDup_bind.
      + intros y1 y2 [a b] _ _ [= -> ->]%list_elem_of_singleton
          [= <-]%list_elem_of_singleton. done.
      + intros. apply NoDup_singleton.
      + apply NoDup_fst_map_to_list.
    - apply NoDup_fst_map_to_list. }
  assert (∃ m, pivot rows = Ok m) as [m Hpivot].
  { unfold pivot. rewrite bool_decide_eq_true_2 by by rewrite Hfst. eauto. }
  exists rows. split_and!; [done|done| |by rewrite Hpivot|].
  - intros k1 k2 x. split.
    + intros Hin. apply list_elem_of_lookup in Hin as [i Hi].
      destruct (Forall2_lookup_r _ _ _ _ _ Hall Hi) as (k & Hk & Hfk).
      destruct (Hrow k) as (g1 & g2 & x' & H1 & H2 & Hx & Hk').
      { apply list_elem_of_lookup. eauto. }
      rewrite Hfk in Hk'. injection Hk' as E1 E2 E3. subst k1 k2 x. eauto.
    + intros (g1 & g2 & H1 & H2 & Hx).
      assert ((k1, k2) ∈ product keys keys) as Hin.
      { apply elem_of_product. unfold keys. rewrite !elem_of_dict_keys. eauto. }
      apply list_elem_of_lookup in Hin as [i Hi].
      destruct (Forall2_lookup_l _ _ _ _ _ Hall Hi) as (y & Hy & Hfy).
      rewrite (similarity_row_inv res_dict (k1, k2) g1 g2), Hx in Hfy by done.
      injection Hfy as <-. apply list_elem_of_lookup. eauto.
  - unfold make_solution_similarity_matrix. rewrite run_bind, run_lift.
    fold keys in Hrows. unfold similarity_rows. fold keys. rewrite Hrows.
    rewrite run_bind, run_lift, Hpivot. by rewrite run_lift, load_simMat.
Qed.

Lemma make_solution_similarity_matrix_rows_witness :
  ∃ rows,
    similarity_rows two_solutions = Ok rows
    ∧ rows.*1 = product (map_to_list two_solutions).*1 (map_to_list two_solutions).*1
    ∧ (∀ k1 k2 m, (k1, k2, m) ∈ rows ↔
                  ∃ g1 g2, two_solutions !! k1 = Some g1 ∧ two_solutions !! k2 = Some g2
                           ∧ _get_similarity g1 g2 = Ok m)
    ∧ is_ok (pivot rows) = true
    ∧ run (make_solution_similarity_matrix two_solutions) world0
      = (world0, Raise (NameError "simMat")).
Proof.
  apply (make_solution_similarity_matrix_rows two_solutions world0).
  intros k g Hk. apply elem_of_map_to_list in Hk.
  change (map_to_list two_solutions) with [("s1", ["a"; "b"]); ("s2", ["b"; "c"])] in Hk.
  repeat (apply elem_of_cons in Hk as [[= -> ->]|Hk]; [discriminate|]).
  by apply elem_of_nil in Hk.
Defined.

(** ** [print_prog] only prints *)

Lemma sample_loop_print_prog (rng : nat → nat) (G : nx_graph) (samples todo i : nat)
    (combs : list (string * string)) (path_costs : gmap (string * string) Q)
    (w w' : world) :
  draws w = draws w' →
  ∃ att : list (string * string),
    (run (sample_loop rng G true samples todo i combs path_costs) w).2
    = (run (sample_loop rng G false samples todo i combs path_costs) w').2
    ∧ attempted (trace (run (sample_loop rng G true samples todo i combs path_costs) w).1)
      = attempted (trace w) ++ att
    ∧ attempted (trace (run (sample_loop rng G false samples todo i combs path_costs) w').1)
      = attempted (trace w') ++ att.
Proof.
  revert i combs path_costs w w'.
  induction todo as [|todo IH]; intros i combs path_costs w w' Hd.
  { exists []. cbn. by rewrite !app_nil_r. }
  cbn [sample_loop]. rewrite !run_bind, !run_sample_step, <- Hd.
  destruct (combs !! (rng (draws w) `mod` length combs)) as [[home dest]|] eqn:Hk.
  - destruct (dijkstra_path_length G home dest "cost") as [c|e].
    + cbn [fst snd].
      edestruct (IH (S i) (delete (rng (draws w) `mod` length combs) combs)
                   (<[(home, dest) := c]> path_costs)) as (att & Hres & Ht & Hf);
        [|exists ((home, dest) :: att); split_and!; [exact Hres| |]].
      * reflexivity.
      * rewrite Ht. cbn [trace]. rewrite !attempted_app. cbn. by rewrite <- app_assoc.
      * rewrite Hf. cbn [trace]. rewrite !attempted_app. cbn. by rewrite <- app_assoc.
    + exists [(home, dest)]. cbn [fst snd trace]. by rewrite !attempted_app.
  - exists []. cbn [fst snd trace]. rewrite !attempted_app. cbn. by rewrite !app_nil_r.
Qed.

Lemma get_path_costs_invalid_run (rng : nat → nat) (seeds : list string)
    (adj_list : edge_table) (print_prog : bool) (p : Q) (w : world) :
  (p <= 0 ∨ 1 < p)%Q →
  run (get_path_costs rng seeds adj_list print_prog p) w
  = (World (trace w ++ [Print "Sampled proportion must be in (0, 1]"]) (draws w),
     Ok None).
Proof.
  intros Hp. unfold get_path_costs. rewrite run_bind.
  unfold try_except at 1. cbn -[Qle_bool].
  destruct (Qle_bool p 0) eqn:H0; cbn -[Qle_bool]; [reflexivity|].
  destruct (Qle_bool p 1) eqn:H1; cbn -[Qle_bool]; [|reflexivity].
  exfalso. destruct Hp as [Hp|Hp].
  - apply Qle_bool_iff in Hp. congruence.
  - apply Qle_bool_iff in H1. by apply Qlt_not_le in Hp.
Qed.

(** X20: [print_prog] changes neither what the call returns or raises nor
    which pairs it attempts, in which order; without it no progress line is
    printed. *)
Theorem get_path_costs_print_prog (rng : nat → nat) (seeds : list string)
    (adj_list : edge_table) (p : Q) (w : world) :
  (run (get_path_costs rng seeds adj_list true p) w).2
  = (run (get_path_costs rng seeds adj_list false p) w).2
  ∧ attempted (trace (run (get_path_costs rng seeds adj_list true p) w).1)
    = attempted (trace (run (get_path_costs rng seeds adj_list false p) w).1)
  ∧ ∀ q, PrintProgress q ∈ trace (run (get_path_costs rng seeds adj_list false p) w).1
         → PrintProgress q ∈ trace w.
Proof.
  destruct (Qle_bool p 0) eqn:H0; [|destruct (Qle_bool p 1) eqn:H1].
  - apply Qle_bool_iff in H0.
    rewrite !get_path_costs_invalid_run by (by left). cbn [fst snd trace].
    split_and!; [done..|]. intros q [Hq|Hq%list_elem_of_singleton]%elem_of_app; done.
  - assert (0 < p)%Q as Hp.
    { apply Qnot_le_lt. intros Hle%Qle_bool_iff. congruence. }
    apply Qle_bool_iff in H1. rewrite !run_get_path_costs_valid by done. cbn zeta.
    set (samples := range_len _). set (G := graph_of adj_list).
    destruct (sample_loop_print_prog rng G samples samples 0 (combinations seeds) ∅
                (World (trace w ++ [BuildGraph]) (draws w))
                (World (trace w ++ [BuildGraph]) (draws w)) eq_refl)
      as (att & Hres & Ht & Hf).
    cbn [fst snd]. rewrite Hres, Ht, Hf. split_and!; [done..|].
    intros q Hq.
    assert (Hquiet : ∀ todo i combs pc w0,
              PrintProgress q ∈ trace (run (sample_loop rng G false samples todo i combs pc) w0).1
              → PrintProgress q ∈ trace w0).
    { clear. induction todo as [|todo IH]; intros i combs pc w0; [done|].
      cbn [sample_loop]. rewrite run_bind, run_sample_step.
      destruct (combs !! _) as [[home dest]|].
      - destruct (dijkstra_path_length G home dest "cost") as [c|e]; cbn [fst snd].
        + intros Hq%IH. cbn in Hq.
          apply elem_of_app in Hq as [Hq|Hq]; [done|].
          repeat (apply elem_of_cons in Hq as [Hq|Hq]; [done|]). by apply elem_of_nil in Hq.
        + cbn. intros [Hq|Hq]%elem_of_app; [done|].
          repeat (apply elem_of_cons in Hq as [Hq|Hq]; [done|]). by apply elem_of_nil in Hq.
      - cbn. by rewrite app_nil_r. }
    apply Hquiet in Hq. cbn in Hq.
    apply elem_of_app in Hq as [Hq|Hq%list_elem_of_singleton]; done.
  - assert (1 < p)%Q as Hp.
    { apply Qnot_le_lt. intros Hle%Qle_bool_iff. congruence. }
    rewrite !get_path_costs_invalid_run by (by right). cbn [fst snd trace].
    split_and!; [done..|]. intros q [Hq|Hq%list_elem_of_singleton]%elem_of_app; done.
Qed.
